(** * Travel recommender: the recommendation endpoint and the preference form

    A shallow embedding of the two source files of the application:

    - [src/app/api/recommend/route.ts], the [POST] handler of the
      recommendation endpoint (module [Route]);
    - the client page with the preference form, [onSubmit] and
      [capitaliseFirstLetter] (module [Page]), the callback of its
      subscription and the rendering of its timeline (module [Timeline]).

    The program is JavaScript: values are dynamically typed, property reads on
    [null] and [undefined] throw, and the handler talks to the outside world
    ([fetch], [console.error], [alert], the document store).  Module [JS] holds
    the values and operators the two files use; effects are a trace of events
    next to a completion (a normal value or a thrown exception). *)

From Stdlib Require Import String Ascii List ZArith Bool Lia DecimalString.
Import ListNotations.
Open Scope string_scope.

Set Warnings "-register-all".

(* ================================================================== *)
(** ** JavaScript values, exceptions and the operators of the program *)
(* ================================================================== *)

Module JS.

(** A number, as its string conversion reads it: not a number, a zero (the
    program cannot tell the two zeros apart), an infinity, or the finite
    non-zero value whose shortest decimal digits are those of [s] and whose
    decimal point comes after the first [n] of them: s * 10^(n - k), with k
    the number of digits of [s].  Every double has such a form. *)
Inductive number : Type :=
| NaN
| Zero
| Infinite (negative : bool)
| Finite (negative : bool) (s : positive) (n : Z).

Definition finite (x : number) : bool :=
  match x with
  | Zero | Finite _ _ _ => true
  | NaN | Infinite _ => false
  end.

Definition nonzero (x : number) : bool :=
  match x with
  | Infinite _ | Finite _ _ _ => true
  | NaN | Zero => false
  end.

Fixpoint zeros (m : nat) : string :=
  match m with
  | O => ""
  | S m' => String "0" (zeros m')
  end.

Fixpoint strip_leading_zeros (s : string) : string :=
  match s with
  | String "0" rest => strip_leading_zeros rest
  | _ => s
  end.

Fixpoint reverse (s : string) : string :=
  match s with
  | EmptyString => EmptyString
  | String c rest => reverse rest ++ String c ""
  end.

(** The digits of [s] without trailing zeros. *)
Definition shortest_digits (s : positive) : string :=
  reverse (strip_leading_zeros (reverse (NilZero.string_of_uint (Pos.to_uint s)))).

Definition natural (z : Z) : string := NilZero.string_of_uint (N.to_uint (Z.abs_N z)).

(** [Number::toString] on a positive finite number, from its digits and
    the place of its decimal point. *)
Definition decimal (digits : string) (n : Z) : string :=
  let k := Z.of_nat (String.length digits) in
  if ((k <=? n) && (n <=? 21))%Z then
    digits ++ zeros (Z.to_nat (n - k))
  else if ((0 <? n) && (n <=? 21))%Z then
    substring 0 (Z.to_nat n) digits ++ "."
    ++ substring (Z.to_nat n) (Z.to_nat (k - n)) digits
  else if ((-6 <? n) && (n <=? 0))%Z then
    "0." ++ zeros (Z.to_nat (- n)) ++ digits
  else
    let exponent := (if (0 <=? n - 1)%Z then "e+" else "e-") ++ natural (n - 1) in
    if (k =? 1)%Z then digits ++ exponent
    else substring 0 1 digits ++ "." ++ substring 1 (Z.to_nat (k - 1)) digits ++ exponent.

(** [String(x)] on a number. *)
Definition number_to_string (x : number) : string :=
  match x with
  | NaN => "NaN"
  | Zero => "0"
  | Infinite false => "Infinity"
  | Infinite true => "-Infinity"
  | Finite negative s n =>
      (if negative then "-" else "") ++ decimal (shortest_digits s) n
  end.

(** An integer as a number. *)
Definition number_of_Z (z : Z) : number :=
  match z with
  | Z0 => Zero
  | Zpos p => Finite false p (Z.of_nat (String.length (NilZero.string_of_uint (Pos.to_uint p))))
  | Zneg p => Finite true p (Z.of_nat (String.length (NilZero.string_of_uint (Pos.to_uint p))))
  end.

(** JSON-shaped values plus [undefined].  An object is the list of its own
    properties, in the order of its keys, which are distinct. *)
Inductive value : Type :=
| VUndefined
| VNull
| VBool (b : bool)
| VNum (n : number)
| VStr (s : string)
| VArr (items : list value)
| VObj (props : list (string * value)).

Inductive error_kind : Type := TypeError | SyntaxError | OtherError.

Record exn : Type := { kind : error_kind; message : string }.

(** How an evaluation ends: with a value, or with a thrown exception. *)
Inductive completion (A : Type) : Type :=
| Normal (a : A)
| Throw (e : exn).

Arguments Normal {A} a.
Arguments Throw {A} e.

(** [!v] is [negb (truthy v)]. *)
Definition truthy (v : value) : bool :=
  match v with
  | VUndefined | VNull => false
  | VBool b => b
  | VNum n => nonzero n
  | VStr s => negb (s =? "")
  | VArr _ | VObj _ => true
  end.

(** [v === null || v === undefined], the test of [?.] and [??]. *)
Definition nullish (v : value) : bool :=
  match v with
  | VUndefined | VNull => true
  | _ => false
  end.

Fixpoint lookup (k : string) (props : list (string * value)) : value :=
  match props with
  | [] => VUndefined
  | (k', v) :: rest => if k' =? k then v else lookup k rest
  end.

(** [v.k] for a value that is neither [null] nor [undefined], and a property
    name that no built-in prototype defines (every name the program reads:
    username, age, style, activity, candidates, content, parts, text, city,
    country, recommendation, error): own properties of objects, [undefined]
    on everything else. *)
Definition member (v : value) (k : string) : value :=
  match v with
  | VObj props => lookup k props
  | _ => VUndefined
  end.

Definition cannot_read (v : value) (k : string) : exn :=
  {| kind := TypeError;
     message := "Cannot read properties of "
                ++ (match v with VNull => "null" | _ => "undefined" end)
                ++ " (reading '" ++ k ++ "')" |}.

(** [v.k]: a [TypeError] on [null] and [undefined]. *)
Definition get_prop (v : value) (k : string) : completion value :=
  if nullish v then Throw (cannot_read v k) else Normal (member v k).

Definition cannot_destructure (v : value) (source k : string) : exn :=
  {| kind := TypeError;
     message := "Cannot destructure property '" ++ k ++ "' of '" ++ source ++ "' as it is "
                ++ (match v with VNull => "null" | _ => "undefined" end) ++ "." |}.

(** [const { k } = source]: a [TypeError] when the value of [source] is
    [null] or [undefined]. *)
Definition destructure (v : value) (source k : string) : completion value :=
  if nullish v then Throw (cannot_destructure v source k) else Normal (member v k).

(** [v?.k] *)
Definition opt_prop (v : value) (k : string) : value :=
  if nullish v then VUndefined else member v k.

Definition index_key (i : nat) : string := NilZero.string_of_uint (Nat.to_uint i).

(** [v[i]] for a value that is neither [null] nor [undefined]: the element
    of an array, the one-unit string of a string, the property named by the
    decimal numeral on an object. *)
Definition element (v : value) (i : nat) : value :=
  match v with
  | VArr items => nth i items VUndefined
  | VStr s => match String.get i s with
              | Some c => VStr (String c "")
              | None => VUndefined
              end
  | VObj props => lookup (index_key i) props
  | _ => VUndefined
  end.

(** [v?.[i]] *)
Definition opt_index (v : value) (i : nat) : value :=
  if nullish v then VUndefined else element v i.

(** [a ?? b] *)
Definition coalesce (a b : value) : value := if nullish a then b else a.

(** The pieces of a text put together from left to right with a separator;
    the first piece that throws ends it. *)
Fixpoint join (separator : string) (pieces : list (completion string)) : completion string :=
  match pieces with
  | [] => Normal ""
  | piece :: rest =>
      match piece with
      | Throw e => Throw e
      | Normal first =>
          match rest with
          | [] => Normal first
          | _ :: _ =>
              match join separator rest with
              | Throw e => Throw e
              | Normal others => Normal (first ++ separator ++ others)
              end
          end
      end
  end.

Definition is_undefined (v : value) : bool :=
  match v with VUndefined => true | _ => false end.

Fixpoint has_own (k : string) (props : list (string * value)) : bool :=
  match props with
  | [] => false
  | (k', _) :: rest => (k' =? k) || has_own k rest
  end.

Definition cannot_convert : exn :=
  {| kind := TypeError; message := "Cannot convert object to primitive value" |}.

(** The conversion to a string of template literals, of [+] with a string
    operand and of [JSON.parse] on its argument.  On data it fails in one
    way: an object with a property of its own named toString, which is data
    and cannot be called, has no primitive value.  An array is the join of
    its elements, null and undefined counting as empty. *)
Fixpoint to_string (v : value) : completion string :=
  match v with
  | VUndefined => Normal "undefined"
  | VNull => Normal "null"
  | VBool true => Normal "true"
  | VBool false => Normal "false"
  | VNum n => Normal (number_to_string n)
  | VStr s => Normal s
  | VArr items =>
      join "," (map (fun x => if nullish x then Normal "" else to_string x) items)
  | VObj props =>
      if has_own "toString" props then Throw cannot_convert
      else Normal "[object Object]"
  end.

(** What comes back from [JSON.parse(JSON.stringify(v))], the way a JSON
    body travels: a number that is not finite becomes null, a property that
    is undefined is left out, an undefined element becomes null. *)
Fixpoint JSON_wire (v : value) : value :=
  match v with
  | VNum n => if finite n then VNum n else VNull
  | VArr items =>
      VArr (map (fun x => match x with VUndefined => VNull | _ => JSON_wire x end) items)
  | VObj props =>
      VObj (filter (fun kv => negb (is_undefined (snd kv)))
                   (map (fun kv => match kv with (k, x) => (k, JSON_wire x) end) props))
  | _ => v
  end.

Definition instanceof_TypeError (e : exn) : bool :=
  match kind e with TypeError => true | _ => false end.

(** *** Effects: a completion and the trace of events performed *)

Section Effects.
Context {E : Type}.

Definition M (A : Type) : Type := (completion A * list E)%type.

Definition ret {A} (a : A) : M A := (Normal a, []).

Definition bind {A B} (m : M A) (f : A -> M B) : M B :=
  match m with
  | (Normal a, t) => let (r, t') := f a in (r, (t ++ t')%list)
  | (Throw e, t) => (Throw e, t)
  end.

(** [await] of a platform promise, or a pure evaluation that may throw. *)
Definition lift {A} (c : completion A) : M A := (c, []).

Definition emit (ev : E) : M unit := (Normal tt, [ev]).

(** [try { m } catch (e) { h e }] *)
Definition try_catch {A} (m : M A) (h : exn -> M A) : M A :=
  match m with
  | (Throw e, t) => let (r, t') := h e in (r, (t ++ t')%list)
  | (Normal a, t) => (Normal a, t)
  end.

Definition outcome {A} (m : M A) : completion A := fst m.
Definition trace {A} (m : M A) : list E := snd m.
End Effects.

Arguments M E A : clear implicits.

Declare Scope js_scope.
Delimit Scope js_scope with js.
Notation "x <- m ;; k" := (bind m (fun x => k))
  (at level 61, m at next level, right associativity) : js_scope.
Notation "m ;; k" := (bind m (fun _ => k))
  (at level 61, right associativity) : js_scope.

End JS.

Import JS.
Local Open Scope js_scope.

(* ================================================================== *)
(** ** The recommendation endpoint: src/app/api/recommend/route.ts     *)
(* ================================================================== *)

Module Route.

Record Response : Type := { status : Z; body : value }.

(** [NextResponse.json(body, { status })]; the status defaults to 200.
    The body of the response is the JSON text of [b]; it is kept as the value
    a reader of that text gets. *)
Definition NextResponse_json (b : value) (init_status : option Z) : Response :=
  {| status := match init_status with Some s => s | None => 200%Z end;
     body := JSON_wire b |}.

(** What the handler reads of the answer of the generative service. *)
Record FetchResponse : Type := {
  ok : bool;
  res_status : Z;
  text : completion string;      (* await res.text() *)
  json : completion value        (* await res.json() *)
}.

(** The request: the handler only awaits [req.json()]. *)
Record NextRequest : Type := { req_json : completion value }.

(** [process.env]: the one variable the handler reads. *)
Record ProcessEnv : Type := { GEMINI_API_KEY : option string }.

Inductive log_arg : Type :=
| LogValue (v : value)
| LogError (e : exn).

Inductive event : Type :=
| Fetch (url : string) (payload : value)
    (* fetch(url, { method: POST, JSON content type, body: JSON.stringify(payload) }) *)
| ConsoleError (args : list log_arg).

Definition is_Fetch (ev : event) : bool :=
  match ev with Fetch _ _ => true | ConsoleError _ => false end.

(** No external call was made. *)
Definition no_external_call (t : list event) : Prop :=
  forall ev, In ev t -> is_Fetch ev = false.

Definition citySchema : value :=
  VObj [ ("type", VStr "OBJECT");
         ("properties",
           VObj [ ("city", VObj [ ("type", VStr "STRING");
                                  ("description", VStr "The name of the recommended travel destination city.") ]);
                  ("country", VObj [ ("type", VStr "STRING");
                                     ("description", VStr "The name of the recommended travel country.") ]);
                  ("recommendation", VObj [ ("type", VStr "STRING");
                                            ("description", VStr "Explanation of what they can do based on the activity.") ]) ]);
         ("required", VArr [ VStr "city"; VStr "country"; VStr "recommendation" ]) ].

Definition nl : string := String (ascii_of_nat 10) "".

Definition error_body (msg : string) : value := VObj [ ("error", VStr msg) ].

Section Handler.
(** The platform: [JSON.parse] and the network. *)
Variable JSON_parse : string -> completion value.
Variable fetch : string -> value -> completion FetchResponse.

(** The text of the template literal around the four converted fields. *)
Definition prompt_text (username age style activity : string) : string :=
  nl ++
  "      Recommend exactly one travel destination city for user " ++ username ++ ". " ++ nl ++
  "      The city should align with the following preferences:" ++ nl ++
  "      - Age: " ++ age ++ nl ++
  "      - Travel Style: " ++ style ++ nl ++
  "      - Favourite Activity: " ++ activity ++ nl ++
  "      " ++ nl ++
  "      Respond with a JSON object containing the recommended city name, country and two sentences explaining what they can do in that city based on their favourite activity and travel style and age." ++ nl ++
  "    ".

(** The template literal: the four fields are converted to strings from
    left to right, and the first conversion that throws ends it. *)
Definition prompt (username age style activity : value) : completion string :=
  match to_string username with
  | Throw e => Throw e
  | Normal u =>
  match to_string age with
  | Throw e => Throw e
  | Normal a =>
  match to_string style with
  | Throw e => Throw e
  | Normal s =>
  match to_string activity with
  | Throw e => Throw e
  | Normal act => Normal (prompt_text u a s act)
  end end end end.

(** The key is a string of the environment, or undefined. *)
Definition apiUrl (geminiApiKey : option string) : string :=
  "https://generativelanguage.googleapis.com/v1beta/models/gemini-2.5-flash-preview-09-2025:generateContent?key="
  ++ match geminiApiKey with Some key => key | None => "undefined" end.

Definition payload (prompt : string) : value :=
  VObj [ ("contents", VArr [ VObj [ ("parts", VArr [ VObj [ ("text", VStr prompt) ] ]) ] ]);
         ("generationConfig",
           VObj [ ("responseMimeType", VStr "application/json");
                  ("responseSchema", citySchema) ]) ].

(** [data.candidates?.[0]?.content?.parts?.[0]?.text]: only the first read
    is unguarded. *)
Definition extract_text (data : value) : completion value :=
  match get_prop data "candidates" with
  | Throw e => Throw e
  | Normal candidates =>
      Normal (opt_prop (opt_index (opt_prop (opt_prop (opt_index candidates 0) "content") "parts") 0) "text")
  end.

(** The body of the inner [try]: [JSON.parse], which first converts its
    argument to a string, and the three field reads. *)
Definition parse_fields (rawJsonText : value) : M event (value * value * value) :=
  text <- lift (to_string rawJsonText) ;;
  parsed <- lift (JSON_parse text) ;;
  city <- lift (get_prop parsed "city") ;;
  country <- lift (get_prop parsed "country") ;;
  recommendation <- lift (get_prop parsed "recommendation") ;;
  ret (city, country, recommendation).

(** The three presence checks and the success response. *)
Definition check_fields (city country recommendation : value) : Response :=
  if negb (truthy city) then
    NextResponse_json (error_body "AI response missing 'city' field") (Some 500%Z)
  else if negb (truthy country) then
    NextResponse_json (error_body "AI response missing 'country' field") (Some 500%Z)
  else if negb (truthy recommendation) then
    NextResponse_json (error_body "AI response missing 'recommendation' field") (Some 500%Z)
  else
    NextResponse_json
      (VObj [ ("city", city); ("country", country); ("recommendation", recommendation) ])
      None.

(** From the extracted text to the response. *)
Definition respond_from_text (rawJsonText : value) : M event Response :=
  r <- try_catch
         (fields <- parse_fields rawJsonText ;; ret (inl fields))
         (fun e =>
            emit (ConsoleError [ LogValue (VStr "Failed to parse JSON response from LLM:");
                                 LogValue rawJsonText; LogError e ]) ;;
            ret (inr (NextResponse_json (error_body "Invalid JSON format from AI") (Some 500%Z)))) ;;
  match r with
  | inr response => ret response
  | inl (city, country, recommendation) => ret (check_fields city country recommendation)
  end.

Definition env_value (o : option string) : value :=
  match o with Some s => VStr s | None => VUndefined end.

(** The body of the outer [try]. *)
Definition POST_try (env : ProcessEnv) (req : NextRequest) : M event Response :=
  let geminiApiKey := env_value (GEMINI_API_KEY env) in
  if negb (truthy geminiApiKey) then
    ret (NextResponse_json (error_body "GEMINI_API_KEY environment variable not set") (Some 500%Z))
  else
    body <- lift (req_json req) ;;
    username <- lift (destructure body "body" "username") ;;
    age <- lift (destructure body "body" "age") ;;
    style <- lift (destructure body "body" "style") ;;
    activity <- lift (destructure body "body" "activity") ;;
    if negb (truthy username) || negb (truthy age) || negb (truthy style) || negb (truthy activity) then
      ret (NextResponse_json (error_body "missing fields") (Some 400%Z))
    else
      prompt <- lift (prompt username age style activity) ;;
      let apiUrl := apiUrl (GEMINI_API_KEY env) in
      let request := payload prompt in
      emit (Fetch apiUrl request) ;;
      res <- lift (fetch apiUrl request) ;;
      if negb (ok res) then
        errorDetail <- lift (text res) ;;
        emit (ConsoleError [ LogValue (VStr "Gemini API error status:");
                             LogValue (VNum (number_of_Z (res_status res)));
                             LogValue (VStr "detail:"); LogValue (VStr errorDetail) ]) ;;
        ret (NextResponse_json (error_body "Gemini API request failed") (Some 500%Z))
      else
        data <- lift (json res) ;;
        rawJsonText <- lift (extract_text data) ;;
        if negb (truthy rawJsonText) then
          emit (ConsoleError [ LogValue (VStr "Gemini API response missing structured text content:");
                               LogValue data ]) ;;
          ret (NextResponse_json (error_body "Could not get structured recommendation from AI") (Some 500%Z))
        else
          respond_from_text rawJsonText.

(** The top-level [catch]. *)
Definition POST_catch (err : exn) : M event Response :=
  emit (ConsoleError [ LogValue (VStr "Server processing error"); LogError err ]) ;;
  (if instanceof_TypeError err then
     emit (ConsoleError [ LogValue (VStr "Possible cause: Request body parsing error (e.g., invalid JSON in POST body)") ])
   else ret tt) ;;
  ret (NextResponse_json (error_body "Server processing error") (Some 500%Z)).

Definition POST (env : ProcessEnv) (req : NextRequest) : M event Response :=
  try_catch (POST_try env req) POST_catch.

(** At least one of the four fields of the request body is missing. *)
Definition missing_field (body : value) : Prop :=
  truthy (member body "username") = false \/ truthy (member body "age") = false \/
  truthy (member body "style") = false \/ truthy (member body "activity") = false.

(** The request passes both gates, its four fields make a prompt, the
    generative service answers the call with a 2xx status and a body from
    which the text [rawJsonText] is extracted. *)
Definition text_extracted (env : ProcessEnv) (req : NextRequest) (rawJsonText : value) : Prop :=
  exists key body sent res data,
    GEMINI_API_KEY env = Some key /\ key <> "" /\
    req_json req = Normal body /\ nullish body = false /\
    truthy (member body "username") = true /\ truthy (member body "age") = true /\
    truthy (member body "style") = true /\ truthy (member body "activity") = true /\
    prompt (member body "username") (member body "age")
           (member body "style") (member body "activity") = Normal sent /\
    fetch (apiUrl (Some key)) (payload sent) = Normal res /\
    ok res = true /\ json res = Normal data /\
    extract_text data = Normal rawJsonText /\ truthy rawJsonText = true.

End Handler.

(** What a response of the endpoint looks like: an error object with a
    non-empty message and status 400 or 500, or status 200 with the three
    fields, each of them what a truthy value becomes as JSON. *)
Definition well_shaped (resp : Response) : Prop :=
  (exists msg, body resp = error_body msg /\ msg <> "" /\
               (status resp = 400%Z \/ status resp = 500%Z)) \/
  (status resp = 200%Z /\
   exists city country recommendation,
     body resp = VObj [ ("city", JSON_wire city); ("country", JSON_wire country);
                        ("recommendation", JSON_wire recommendation) ] /\
     truthy city = true /\ truthy country = true /\ truthy recommendation = true).

End Route.

(* ================================================================== *)
(** ** The client page: preference form, submission, display transform *)
(* ================================================================== *)

Module Page.

(** [type FormData = z.infer<typeof FormSchema>] *)
Record FormData : Type := {
  username : string;
  age : string;
  style : string;
  activity : string
}.

Inductive Field : Type := Username | Age | Style | Activity.

Definition Field_eqb (f g : Field) : bool :=
  match f, g with
  | Username, Username | Age, Age | Style, Style | Activity, Activity => true
  | _, _ => false
  end.

Definition field_value (f : Field) (data : FormData) : string :=
  match f with
  | Username => username data
  | Age => age data
  | Style => style data
  | Activity => activity data
  end.

(** [z.string().min(n)] *)
Record ZodString : Type := { min : nat }.

(** [z.object({ username: z.string().min(2), age: z.string().min(1),
                style: z.string().min(3), activity: z.string().min(3) })] *)
Definition FormSchema : list (Field * ZodString) :=
  [ (Username, {| min := 2 |});
    (Age, {| min := 1 |});
    (Style, {| min := 3 |});
    (Activity, {| min := 3 |}) ].

Definition defaultValues : FormData :=
  {| username := ""; age := ""; style := ""; activity := "" |}.

(** What react-hook-form keeps per invalid field and the page renders as
    [errors.field.message]. *)
Record FieldError : Type := { type : string; error_message : string }.

Definition FieldErrors : Type := list (Field * FieldError).

Fixpoint field_error (f : Field) (errors : FieldErrors) : option FieldError :=
  match errors with
  | [] => None
  | (g, e) :: rest => if Field_eqb g f then Some e else field_error f rest
  end.

(** [{errors.field && <p>{errors.field.message}</p>}] *)
Definition rendered_message (errors : FieldErrors) (f : Field) : option string :=
  option_map error_message (field_error f errors).

(** A value stored in a document: plain data, or the sentinel of
    [serverTimestamp()]. *)
Inductive FieldValue : Type :=
| Data (v : value)
| ServerTimestamp.

Definition DocumentData : Type := list (string * FieldValue).

(** What [onSubmit] reads of the answer of the endpoint. *)
Record Response : Type := {
  ok : bool;
  json : completion value        (* await res.json() *)
}.

Inductive event : Type :=
| Fetch (url : string) (payload : value)
    (* fetch(url, { method: POST, JSON content type, body: JSON.stringify(payload) }) *)
| Alert (text : string)
| AddDoc (collection : string) (doc : DocumentData)
| Reset.

Definition is_AddDoc (ev : event) : bool :=
  match ev with AddDoc _ _ => true | _ => false end.

Definition is_Fetch (ev : event) : bool :=
  match ev with Fetch _ _ => true | _ => false end.

(** The document store is not written. *)
Definition store_untouched (t : list event) : Prop :=
  forall ev, In ev t -> is_AddDoc ev = false.

(** No network call is issued. *)
Definition no_network_call (t : list event) : Prop :=
  forall ev, In ev t -> is_Fetch ev = false.

Section Submit.
(** The platform: the network and the document store. *)
Variable fetch : string -> value -> completion Response.
Variable addDoc : string -> DocumentData -> completion unit.

Definition request_body (data : FormData) : value :=
  VObj [ ("username", VStr (username data));
         ("age", VStr (age data));
         ("style", VStr (style data));
         ("activity", VStr (activity data)) ].

Definition record (data : FormData) (city country recommendation : value) : DocumentData :=
  [ ("username", Data (VStr (username data)));
    ("age", Data (VStr (age data)));
    ("style", Data (VStr (style data)));
    ("activity", Data (VStr (activity data)));
    ("city", Data city);
    ("country", Data country);
    ("recommendation", Data recommendation);
    ("createdAt", ServerTimestamp) ].

Definition onSubmit (data : FormData) : M event unit :=
  emit (Fetch "/api/recommend" (request_body data)) ;;
  res <- lift (fetch "/api/recommend" (request_body data)) ;;
  json <- lift (json res) ;;
  (* !res.ok || json.error : the right operand is read only when res.ok *)
  failed <- (if negb (ok res) then ret true
             else error <- lift (get_prop json "error") ;; ret (truthy error)) ;;
  if failed : bool then
    error <- lift (get_prop json "error") ;;
    (* the argument of alert: the concatenation converts the operand first *)
    text <- lift (to_string (coalesce error (VStr "unknown"))) ;;
    emit (Alert ("Recommendation failed: " ++ text))
  else
    city <- lift (get_prop json "city") ;;
    country <- lift (get_prop json "country") ;;
    recommendation <- lift (get_prop json "recommendation") ;;
    let city := coalesce city (VStr "Unknown") in
    let country := coalesce country (VStr "Unknown") in
    let recommendation := coalesce recommendation (VStr "Unknown") in
    emit (AddDoc "recommendations" (record data city country recommendation)) ;;
    lift (addDoc "recommendations" (record data city country recommendation)) ;;
    emit Reset.

(** The default message of the validation library for a string shorter
    than the minimum (its wording depends on the library version). *)
Variable too_small_message : nat -> string.

(** [zodResolver(FormSchema)]: one error per field whose string is
    shorter than the minimum of its schema. *)
Fixpoint zodResolver (schema : list (Field * ZodString)) (values : FormData) : FieldErrors :=
  match schema with
  | [] => []
  | (f, s) :: rest =>
      if (String.length (field_value f values) <? min s)%nat then
        (f, {| type := "too_small"; error_message := too_small_message (min s) |})
          :: zodResolver rest values
      else zodResolver rest values
  end.

(** [handleSubmit(onSubmit)] of the form library with the resolver of
    [useForm]: the values are validated first, [onSubmit] runs only when
    no field has an error; the result is the [errors] of the form state. *)
Definition handleSubmit (onValid : FormData -> M event unit) (values : FormData)
  : M event FieldErrors :=
  match zodResolver FormSchema values with
  | [] => onValid values ;; ret []
  | errors => ret errors
  end.

Definition submit (values : FormData) : M event FieldErrors :=
  handleSubmit onSubmit values.

End Submit.

Section Capitalise.
(** [String.prototype.toLocaleUpperCase] of the platform, in the locale of
    the browser. *)
Variable toLocaleUpperCase : string -> string.

(** [s.slice(start, end)] for [0 <= start] and [0 <= end <= s.length] *)
Definition slice (s : string) (start stop : nat) : string :=
  substring start (stop - start) s.

(** [sentence[0]] is [undefined] on the empty string, and the method call
    on it throws. *)
Definition capitaliseFirstLetter (sentence : string) : completion string :=
  let sentenceLength := String.length sentence in
  match String.get 0 sentence with
  | None => Throw (cannot_read VUndefined "toLocaleUpperCase")
  | Some first =>
      let capitalisedFirstLetter := toLocaleUpperCase (String first "") in
      let restOfSentence := slice sentence 1 sentenceLength in
      let capitalisedSentence := capitalisedFirstLetter ++ restOfSentence in
      Normal capitalisedSentence
  end.
End Capitalise.

(** The conversion leaves the first unit of its own result alone: upper
    case of an upper-case unit is that unit. *)
Definition first_unit_stable (toLocaleUpperCase : string -> string) : Prop :=
  forall c, exists u r,
    toLocaleUpperCase (String c "") = String u r /\
    toLocaleUpperCase (String u "") = String u "".

(** Some field is shorter than its minimum length. *)
Definition below_minimum (data : FormData) : Prop :=
  String.length (username data) < 2 \/ String.length (age data) < 1 \/
  String.length (style data) < 3 \/ String.length (activity data) < 3.

(** Upper case of the letters a to z, every other unit unchanged: what
    [toLocaleUpperCase] does on ASCII text (outside the Turkic and Lithuanian
    locales). *)
Definition ascii_upper (c : ascii) : ascii :=
  let n := nat_of_ascii c in
  if ((97 <=? n) && (n <=? 122))%nat then ascii_of_nat (n - 32) else c.

Fixpoint ascii_toLocaleUpperCase (s : string) : string :=
  match s with
  | EmptyString => EmptyString
  | String c rest => String (ascii_upper c) (ascii_toLocaleUpperCase rest)
  end.

End Page.

(* ================================================================== *)
(** ** The page in front of the endpoint                               *)
(* ================================================================== *)

Module System.

(** The endpoint as the page reaches it: the request body is what the
    JSON text of the payload reads back as, the answer carries the 2xx test
    of the status and the JSON body of the response. *)
Definition served
    (JSON_parse : string -> completion value)
    (upstream : string -> value -> completion Route.FetchResponse)
    (env : Route.ProcessEnv) : string -> value -> completion Page.Response :=
  fun _ payload =>
    match outcome (Route.POST JSON_parse upstream env
                              {| Route.req_json := Normal (JSON_wire payload) |}) with
    | Normal resp =>
        Normal {| Page.ok := ((200 <=? Route.status resp) && (Route.status resp <=? 299))%Z;
                  Page.json := Normal (Route.body resp) |}
    | Throw e => Throw e
    end.

End System.

(* ================================================================== *)
(** ** The paths of the handler past its two gates                     *)
(* ================================================================== *)

Module RoutePaths.
Import Route.










End RoutePaths.

Module PagePaths.

(** The default of the three result fields. *)
Definition Unknown : value := VStr "Unknown".

End PagePaths.

(* ================================================================== *)
(** ** The timeline: subscription callback and rendering               *)
(* ================================================================== *)

Module Timeline.

(** A field of a document as the store hands it back: plain data, or a
    timestamp object (the only value with a [toDate] method). Timestamps
    nested inside arrays and maps are left out. *)
Inductive Stored : Type :=
| Plain (v : value)
| Timestamp (millis : Z).

(** A JavaScript object as the list of its own properties, with distinct
    keys, in insertion order. *)
Definition Fields : Type := list (string * Stored).

(** [d.id] and [d.data()] of a document of a snapshot. *)
Record QueryDocumentSnapshot : Type := { id : string; data : Fields }.

(** [o.k] on an object; [None] is [undefined]. *)
Fixpoint own (k : string) (o : Fields) : option Stored :=
  match o with
  | [] => None
  | (k', v) :: rest => if k' =? k then Some v else own k rest
  end.

(** Defining the property [k] on an object: an existing key keeps its
    place and takes the new value, a new key goes last. *)
Fixpoint set_prop (k : string) (v : Stored) (o : Fields) : Fields :=
  match o with
  | [] => [ (k, v) ]
  | (k', v') :: rest =>
      if k' =? k then (k, v) :: rest else (k', v') :: set_prop k v rest
  end.

(** [{ ...target, ...source }]: the properties of [source] are defined on
    the object one after the other. *)
Definition spread (target source : Fields) : Fields :=
  fold_left (fun o kv => set_prop (fst kv) (snd kv) o) source target.

(** [d => ({ id: d.id, ...d.data() })] *)
Definition item_of (d : QueryDocumentSnapshot) : Fields :=
  spread [ ("id", Plain (VStr (id d))) ] (data d).

(** The callback of [onSnapshot]: the new value of the [timeline] state,
    [snap.docs.map(d => ({ id: d.id, ...d.data() }))]. *)
Definition timeline_of (docs : list QueryDocumentSnapshot) : list Fields :=
  map item_of docs.

Definition not_a_function (what : string) : exn :=
  {| kind := TypeError; message := what ++ " is not a function" |}.

Section Render.
(** The platform: upper case in the locale, the clock, and the local
    rendering of a time. *)
Variable toLocaleUpperCase : string -> string.
Variable now : Z.
Variable toLocaleString : Z -> string.

(** [capitaliseFirstLetter] on whatever the record holds (the items are
    typed any): on a string it is the function of the page; on an array
    [sentence[0]] is the first element, [slice] is that of arrays and [+]
    converts the rest to a string; every other value ends in a TypeError. *)
Definition capitalise_value (sentence : value) : completion string :=
  match sentence with
  | VUndefined | VNull => Throw (cannot_read sentence "length")
  | VStr s => Page.capitaliseFirstLetter toLocaleUpperCase s
  | VArr items =>
      match nth 0 items VUndefined with
      | VStr first =>
          match to_string (VArr (skipn 1 items)) with
          | Throw e => Throw e
          | Normal rest => Normal (toLocaleUpperCase first ++ rest)
          end
      | VUndefined => Throw (cannot_read VUndefined "toLocaleUpperCase")
      | VNull => Throw (cannot_read VNull "toLocaleUpperCase")
      | _ => Throw (not_a_function "sentence[0].toLocaleUpperCase")
      end
  | VObj props =>
      match lookup "0" props with
      | VStr _ => Throw (not_a_function "sentence.slice")
      | VUndefined => Throw (cannot_read VUndefined "toLocaleUpperCase")
      | VNull => Throw (cannot_read VNull "toLocaleUpperCase")
      | _ => Throw (not_a_function "sentence[0].toLocaleUpperCase")
      end
  | VNum _ | VBool _ => Throw (cannot_read VUndefined "toLocaleUpperCase")
  end.

Definition capitalise_field (x : option Stored) : completion string :=
  match x with
  | None => Throw (cannot_read VUndefined "length")
  | Some (Plain v) => capitalise_value v
  | Some (Timestamp _) => Throw (cannot_read VUndefined "toLocaleUpperCase")
  end.

(** [item.createdAt?.toDate?.() ?? Date.now()], as the time handed to
    [new Date]: the time of a timestamp; the clock when the field is absent,
    null, or a value without [toDate]; a TypeError when [toDate] is there
    and is data. *)
Definition created_time (createdAt : option Stored) : completion Z :=
  match createdAt with
  | None => Normal now
  | Some (Timestamp millis) => Normal millis
  | Some (Plain v) =>
      if nullish v then Normal now
      else if nullish (member v "toDate") then Normal now
      else Throw (not_a_function "item.createdAt?.toDate")
  end.

(** The key of an element is converted to a string when the element is
    made, unless it is undefined; the conversion of a timestamp does not
    throw. *)
Definition key_check (key : option Stored) : completion unit :=
  match key with
  | Some (Plain v) =>
      match to_string v with
      | Throw e => Throw e
      | Normal _ => Normal tt
      end
  | _ => Normal tt
  end.

(** The list item the page function builds for one record: the texts it
    computes, and the fields it hands over as children as they are. *)
Record ItemElement : Type := {
  key_prop : option Stored;
  time_text : string;
  username_child : option Stored;
  city_text : string;
  country_text : string;
  age_child : option Stored;
  style_text : string;
  activity_text : string;
  recommendation_child : option Stored
}.

(** The body of the callback of [timeline.map], in evaluation order: the
    children first, the element with its key last. *)
Definition item_element (item : Fields) : completion ItemElement :=
  match created_time (own "createdAt" item) with
  | Throw e => Throw e
  | Normal t =>
  match capitalise_field (own "city" item) with
  | Throw e => Throw e
  | Normal city =>
  match capitalise_field (own "country" item) with
  | Throw e => Throw e
  | Normal country =>
  match capitalise_field (own "style" item) with
  | Throw e => Throw e
  | Normal style =>
  match capitalise_field (own "activity" item) with
  | Throw e => Throw e
  | Normal activity =>
  match key_check (own "id" item) with
  | Throw e => Throw e
  | Normal _ =>
      Normal {| key_prop := own "id" item;
                time_text := toLocaleString t;
                username_child := own "username" item;
                city_text := city;
                country_text := country;
                age_child := own "age" item;
                style_text := style;
                activity_text := activity;
                recommendation_child := own "recommendation" item |}
  end end end end end end.

Definition invalid_child : exn :=
  {| kind := OtherError; message := "Objects are not valid as a React child" |}.

(** The text the view library shows for a child that is data: a string or
    a number as text, a boolean, null or undefined as nothing, an array as
    its elements one after the other; an object is refused. *)
Fixpoint child_text (v : value) : completion string :=
  match v with
  | VUndefined | VNull | VBool _ => Normal ""
  | VStr s => Normal s
  | VNum n => Normal (number_to_string n)
  | VArr items => join "" (map child_text items)
  | VObj _ => Throw invalid_child
  end.

Definition stored_child (x : option Stored) : completion string :=
  match x with
  | None => Normal ""
  | Some (Plain v) => child_text v
  | Some (Timestamp _) => Throw invalid_child
  end.

(** One item as shown. *)
Record RenderedItem : Type := {
  key : option Stored;
  time : string;
  username : string;
  city : string;
  country : string;
  age : string;
  style : string;
  activity : string;
  recommendation : string
}.

(** The view library turning the element of an item into what is shown:
    the children that are data, in document order. *)
Definition mount_item (el : ItemElement) : completion RenderedItem :=
  match stored_child (username_child el) with
  | Throw e => Throw e
  | Normal username =>
  match stored_child (age_child el) with
  | Throw e => Throw e
  | Normal age =>
  match stored_child (recommendation_child el) with
  | Throw e => Throw e
  | Normal recommendation =>
      Normal {| key := key_prop el;
                time := time_text el;
                username := username;
                city := city_text el;
                country := country_text el;
                age := age;
                style := style_text el;
                activity := activity_text el;
                recommendation := recommendation |}
  end end end.

(** Rendering one item: the page function builds its element, the view
    library shows it. *)
Definition render_item (item : Fields) : completion RenderedItem :=
  match item_element item with
  | Throw e => Throw e
  | Normal el => mount_item el
  end.

(** [timeline.map(item => ...)]: the elements in order, the first
    exception ends the page function. *)
Fixpoint item_elements (timeline : list Fields) : completion (list ItemElement) :=
  match timeline with
  | [] => Normal []
  | item :: rest =>
      match item_element item with
      | Throw e => Throw e
      | Normal el =>
          match item_elements rest with
          | Throw e => Throw e
          | Normal els => Normal (el :: els)
          end
      end
  end.

Fixpoint mount_items (elements : list ItemElement) : completion (list RenderedItem) :=
  match elements with
  | [] => Normal []
  | el :: rest =>
      match mount_item el with
      | Throw e => Throw e
      | Normal r =>
          match mount_items rest with
          | Throw e => Throw e
          | Normal rs => Normal (r :: rs)
          end
      end
  end.

Record RenderedTimeline : Type := {
  items : list RenderedItem;
  placeholder : option string
}.

(** The list of the timeline section: the page function builds every
    element, then the view library shows them; the placeholder is there
    when [timeline.length === 0]. *)
Definition render_timeline (timeline : list Fields) : completion RenderedTimeline :=
  match item_elements timeline with
  | Throw e => Throw e
  | Normal elements =>
      match mount_items elements with
      | Throw e => Throw e
      | Normal rs =>
          Normal {| items := rs;
                    placeholder := if (List.length timeline =? 0)%nat
                                   then Some "No recommendations yet." else None |}
      end
  end.

End Render.

(** The fields of a written record as a snapshot hands them back: data
    unchanged, the server timestamp as the timestamp the server assigned, or
    null while the write is pending. *)
Definition read_field (assigned : option Z) (f : Page.FieldValue) : Stored :=
  match f with
  | Page.Data v => Plain v
  | Page.ServerTimestamp =>
      match assigned with Some millis => Timestamp millis | None => Plain VNull end
  end.

Definition read_back (assigned : option Z) (doc : Page.DocumentData) : Fields :=
  map (fun kv => (fst kv, read_field assigned (snd kv))) doc.

(** A stored field is a non-empty string. *)
Definition text_field (x : option Stored) : Prop :=
  exists s, x = Some (Plain (VStr s)) /\ s <> "".

(** A stored field is absent or the empty string. *)
Definition blank (x : option Stored) : Prop :=
  x = None \/ x = Some (Plain (VStr "")).

(** The clock stands in for a timestamp the server has not assigned yet. *)
Definition shown_time (now : Z) (assigned : option Z) : Z :=
  match assigned with Some millis => millis | None => now end.

End Timeline.

(* ================================================================== *)
(** ** Sample platforms and inputs                                     *)
(* ================================================================== *)

Module Samples.

Definition q : string := String (ascii_of_nat 34) "".

(** The JSON text of an object with string members. *)
Fixpoint members_text (props : list (string * string)) : string :=
  match props with
  | [] => ""
  | (k, v) :: rest =>
      q ++ k ++ q ++ ":" ++ q ++ v ++ q
      ++ (match rest with [] => "" | _ :: _ => "," ++ members_text rest end)
  end.

Definition object_text (props : list (string * string)) : string :=
  "{" ++ members_text props ++ "}".

Definition object_value (props : list (string * string)) : value :=
  VObj (map (fun kv => (fst kv, VStr (snd kv))) props).

Definition lisbon : list (string * string) :=
  [ ("city", "Lisbon"); ("country", "Portugal");
    ("recommendation", "Walk the hills of Alfama. Rest by the river.") ].

Definition lisbon_without_country : list (string * string) :=
  [ ("city", "Lisbon");
    ("recommendation", "Walk the hills of Alfama. Rest by the river.") ].

(** [JSON.parse] on the texts used below; every other text counts as
    malformed here. *)
Definition JSON_parse (s : string) : completion value :=
  if s =? object_text lisbon then Normal (object_value lisbon)
  else if s =? object_text lisbon_without_country then Normal (object_value lisbon_without_country)
  else if s =? "null" then Normal VNull
  else if s =? "{}" then Normal (VObj [])
  else Throw {| kind := SyntaxError; message := "Unexpected token" |}.

(** A generative service that answers every call with the given text as
    its first candidate. *)
Definition service_answers (generated : string) : string -> value -> completion Route.FetchResponse :=
  fun _ _ =>
    Normal {| Route.ok := true;
              Route.res_status := 200;
              Route.text := Normal "";
              Route.json :=
                Normal (VObj [ ("candidates",
                  VArr [ VObj [ ("content",
                    VObj [ ("parts", VArr [ VObj [ ("text", VStr generated) ] ]) ]) ] ]) ]) |}.

(** A network that is down. *)
Definition unreachable {R : Type} : string -> value -> completion R :=
  fun _ _ => Throw {| kind := TypeError; message := "fetch failed" |}.

Definition configured : Route.ProcessEnv := {| Route.GEMINI_API_KEY := Some "secret" |}.
Definition unconfigured : Route.ProcessEnv := {| Route.GEMINI_API_KEY := None |}.

Definition ana : Page.FormData :=
  {| Page.username := "Ana"; Page.age := "29"; Page.style := "Relaxed"; Page.activity := "Hiking" |}.

Definition ana_body : value :=
  VObj [ ("username", VStr "Ana"); ("age", VStr "29");
         ("style", VStr "Relaxed"); ("activity", VStr "Hiking") ].

Definition request_of (b : value) : Route.NextRequest := {| Route.req_json := Normal b |}.

(** An endpoint that answers every call of the page with the given response. *)
Definition endpoint_answers (res : Page.Response) : string -> value -> completion Page.Response :=
  fun _ _ => Normal res.

Definition missing_fields_response : Page.Response :=
  {| Page.ok := false; Page.json := Normal (VObj [ ("error", VStr "missing fields") ]) |}.

(** A 2xx answer whose city is the empty string and whose country is null. *)
Definition hollow_response : Page.Response :=
  {| Page.ok := true; Page.json := Normal (VObj [ ("city", VStr ""); ("country", VNull) ]) |}.

(** A document store that accepts every write. *)
Definition store_accepts : string -> Page.DocumentData -> completion unit :=
  fun _ _ => Normal tt.

Definition at_least (n : nat) : string :=
  "at least " ++ NilZero.string_of_uint (Nat.to_uint n).

Definition short_name : Page.FormData :=
  {| Page.username := "A"; Page.age := "29"; Page.style := "Relaxed"; Page.activity := "Hiking" |}.

End Samples.

(* ================================================================== *)
(** ** More sample platforms                                           *)
(* ================================================================== *)

Module Cases.





Definition lisbon_response : Page.Response :=
  {| Page.ok := true; Page.json := Normal (Samples.object_value Samples.lisbon) |}.

(** An answer whose body is not JSON. *)
Definition html_response : Page.Response :=
  {| Page.ok := false;
     Page.json := Throw {| kind := SyntaxError; message := "Unexpected token" |} |}.

(** A document store that refuses every write. *)
Definition store_refuses : string -> Page.DocumentData -> completion unit :=
  fun _ _ => Throw {| kind := OtherError; message := "permission-denied" |}.

(** An upstream text whose city is a number. *)
Definition numbered_text : string :=
  "{" ++ Samples.q ++ "city" ++ Samples.q ++ ":7,"
      ++ Samples.members_text [ ("country", "Portugal"); ("recommendation", "Walk.") ] ++ "}".

Definition numbered_value : value :=
  VObj [ ("city", VNum (number_of_Z 7)); ("country", VStr "Portugal");
         ("recommendation", VStr "Walk.") ].

(** [JSON.parse] on that text as well. *)
Definition JSON_parse (s : string) : completion value :=
  if s =? numbered_text then Normal numbered_value else Samples.JSON_parse s.

(** The shortest values the schema accepts. *)
Definition shortest : Page.FormData :=
  {| Page.username := "Al"; Page.age := "7"; Page.style := "Zen"; Page.activity := "Ski" |}.

End Cases.

(* ================================================================== *)
(** ** Properties of the recommendation endpoint                       *)
(* ================================================================== *)

Module RouteSpec.
Import Route.

Lemma truthy_str (s : string) : truthy (VStr s) = true <-> s <> "".
Proof.
  simpl. destruct (String.eqb_spec s ""); simpl; split; intros; congruence.
Qed.

Lemma truthy_not_nullish (v : value) : truthy v = true -> nullish v = false.
Proof. destruct v; simpl; congruence. Qed.

Lemma get_prop_normal (v : value) (k : string) :
  nullish v = false -> get_prop v k = Normal (member v k).
Proof. unfold get_prop. intros ->. reflexivity. Qed.

Lemma get_prop_throw (v : value) (k : string) :
  nullish v = true -> get_prop v k = Throw (cannot_read v k).
Proof. unfold get_prop. intros ->. reflexivity. Qed.

(** Induction on values through their arrays and objects. *)
Lemma value_induction (P : value -> Prop) :
  P VUndefined -> P VNull -> (forall b, P (VBool b)) -> (forall n, P (VNum n)) ->
  (forall s, P (VStr s)) ->
  (forall items, Forall P items -> P (VArr items)) ->
  (forall props, Forall (fun kv => P (snd kv)) props -> P (VObj props)) ->
  forall v, P v.
Proof.
  intros HU HN HB Hnum HS HA HO.
  fix IH 1. intros [| | b | n | s | items | props].
  - exact HU.
  - exact HN.
  - apply HB.
  - apply Hnum.
  - apply HS.
  - apply HA. induction items as [| x rest IHrest]; constructor; [apply IH | exact IHrest].
  - apply HO. induction props as [| [k x] rest IHrest]; constructor; [apply IH | exact IHrest].
Qed.

(** The conversion to a string throws only the TypeError of an object
    without a primitive value. *)
Lemma join_throws (separator : string) (pieces : list (completion string)) (e : exn) :
  join separator pieces = Throw e -> In (Throw e) pieces.
Proof.
  induction pieces as [| piece rest IH]; simpl; [discriminate |].
  destruct piece as [first | e']; [| intros [= <-]; left; reflexivity].
  destruct rest as [| next rest']; [discriminate |].
  destruct (join separator (next :: rest')) as [others | e'']; [discriminate |].
  intros [= <-]. right. apply IH. reflexivity.
Qed.

Lemma to_string_throws (v : value) (e : exn) :
  to_string v = Throw e -> e = cannot_convert.
Proof.
  revert e. induction v as [| | b | n | s | items IH | props _] using value_induction;
    intros e; simpl; try discriminate.
  - destruct b; discriminate.
  - intros Hjoin. apply join_throws in Hjoin. apply in_map_iff in Hjoin.
    destruct Hjoin as (x & Hx & Hin).
    rewrite Forall_forall in IH. apply (IH x Hin).
    destruct (nullish x); [discriminate Hx | exact Hx].
  - destruct (has_own "toString" props); [intros [= <-]; reflexivity | discriminate].
Qed.

Lemma to_string_TypeError (v : value) (e : exn) :
  to_string v = Throw e -> kind e = TypeError.
Proof. intros H. rewrite (to_string_throws v e H). reflexivity. Qed.

Lemma prompt_TypeError (username age style activity : value) (e : exn) :
  prompt username age style activity = Throw e -> kind e = TypeError.
Proof.
  unfold prompt.
  destruct (to_string username) eqn:Hu; [| intros [= <-]; exact (to_string_TypeError _ _ Hu)].
  destruct (to_string age) eqn:Ha; [| intros [= <-]; exact (to_string_TypeError _ _ Ha)].
  destruct (to_string style) eqn:Hs; [| intros [= <-]; exact (to_string_TypeError _ _ Hs)].
  destruct (to_string activity) eqn:Hact; [| intros [= <-]; exact (to_string_TypeError _ _ Hact)].
  discriminate.
Qed.

(** A truthy value is not left out of a JSON object. *)
Lemma JSON_wire_fields (city country recommendation : value) :
  truthy city = true -> truthy country = true -> truthy recommendation = true ->
  JSON_wire (VObj [ ("city", city); ("country", country); ("recommendation", recommendation) ])
  = VObj [ ("city", JSON_wire city); ("country", JSON_wire country);
           ("recommendation", JSON_wire recommendation) ].
Proof.
  intros Hc Hk Hr.
  destruct city; try discriminate Hc; destruct country; try discriminate Hk;
    destruct recommendation; try discriminate Hr; simpl;
    repeat match goal with |- context [finite ?n] => destruct (finite n) end;
    reflexivity.
Qed.

(** As JSON a truthy value stays truthy, unless it is a number that is
    not finite, which becomes null. *)
Lemma JSON_wire_truthy (v : value) :
  truthy v = true ->
  truthy (JSON_wire v) = true \/
  (JSON_wire v = VNull /\ exists n, v = VNum n /\ finite n = false).
Proof.
  destruct v as [| | b | n | s | items | props]; simpl; try discriminate; auto.
  destruct n as [| | negative | negative s n]; simpl; try discriminate; auto.
  intros _. right. split; [reflexivity |]. eexists; split; reflexivity.
Qed.

Section Facts.
Variable JSON_parse : string -> completion value.
Variable fetch : string -> value -> completion FetchResponse.

Local Opaque prompt apiUrl payload.

(** The responses of the parse step: never an exception, never an
    external call, status 200 or 500. *)
Lemma respond_from_text_normal (rawJsonText : value) :
  exists resp t,
    respond_from_text JSON_parse rawJsonText = (Normal resp, t) /\
    no_external_call t /\ status resp <> 400%Z.
Proof.
  unfold Route.respond_from_text, Route.parse_fields, check_fields.
  destruct (to_string rawJsonText) as [text | e]; simpl.
  2: { eexists; eexists; split; [reflexivity | split].
       - intros ev [<- | []]; reflexivity.
       - simpl; discriminate. }
  destruct (JSON_parse text) as [parsed | e]; simpl.
  - unfold get_prop. destruct (nullish parsed); simpl.
    + eexists; eexists; split; [reflexivity | split].
      * intros ev [<- | []]; reflexivity.
      * simpl; discriminate.
    + destruct (truthy (member parsed "city")), (truthy (member parsed "country")),
        (truthy (member parsed "recommendation")); simpl;
        (eexists; eexists; split; [reflexivity | split;
          [intros ev [] | simpl; discriminate]]).
  - eexists; eexists; split; [reflexivity | split].
    + intros ev [<- | []]; reflexivity.
    + simpl; discriminate.
Qed.

(** When the text parses to a value other than null, the response is that
    of the three presence checks on its fields. *)
Lemma respond_from_text_parsed (rawJsonText : value) (text : string) (parsed : value) :
  to_string rawJsonText = Normal text ->
  JSON_parse text = Normal parsed ->
  nullish parsed = false ->
  respond_from_text JSON_parse rawJsonText
  = (Normal (check_fields (member parsed "city") (member parsed "country")
                          (member parsed "recommendation")), []).
Proof.
  intros Htext Hparse Hnull.
  unfold Route.respond_from_text, Route.parse_fields.
  rewrite Htext. simpl. rewrite Hparse. simpl.
  unfold get_prop. rewrite Hnull. reflexivity.
Qed.

(** Past both gates and the extraction, the handler is one external call
    followed by the parse step. *)
Lemma POST_text_extracted (env : ProcessEnv) (req : NextRequest) (rawJsonText : value) :
  text_extracted fetch env req rawJsonText ->
  exists url request,
    POST JSON_parse fetch env req
    = (emit (Fetch url request) ;; respond_from_text JSON_parse rawJsonText).
Proof.
  intros (key & body & sent & res & data & Hkey & Hne & Hreq & Hbody & Hu & Ha & Hs & Hact
          & Hprompt & Hfetch & Hok & Hjson & Htext & Htruthy).
  exists (apiUrl (Some key)), (payload sent).
  destruct (respond_from_text_normal rawJsonText) as (resp & t & Hresp & _ & _).
  unfold Route.POST, Route.POST_try.
  rewrite Hkey. simpl env_value.
  rewrite (proj2 (truthy_str key) Hne). simpl negb. cbv iota.
  rewrite Hreq. simpl. unfold destructure. rewrite Hbody. simpl.
  rewrite Hu, Ha, Hs, Hact. simpl. rewrite Hprompt. simpl.
  rewrite Hfetch. simpl. rewrite Hok. simpl.
  rewrite Hjson. simpl. rewrite Htext. simpl. rewrite Htruthy. simpl.
  rewrite Hresp. reflexivity.
Qed.

Ltac other_status :=
  eexists; eexists; split;
  [ reflexivity | simpl; intros Hst; solve [ discriminate Hst | contradiction ] ].

Ltac caught :=
  unfold POST_catch;
  match goal with
  | |- context [instanceof_TypeError ?e] => destruct (instanceof_TypeError e)
  end; simpl; other_status.

(** The handler always completes with a response, and the only place
    that answers 400 is the validation gate, before any effect. *)
Lemma POST_400_inversion (env : ProcessEnv) (req : NextRequest) :
  exists resp t,
    POST JSON_parse fetch env req = (Normal resp, t) /\
    (status resp = 400%Z ->
     t = [] /\ body resp = error_body "missing fields" /\
     exists key b,
       GEMINI_API_KEY env = Some key /\ key <> "" /\
       req_json req = Normal b /\ nullish b = false /\ missing_field b).
Proof.
  unfold Route.POST, Route.POST_try.
  destruct env as [[key |]]; simpl; [| other_status].
  destruct (String.eqb_spec key "") as [-> | Hkey]; simpl; [other_status |].
  destruct req as [[b | e]]; simpl.
  2: { caught. }
  unfold destructure. destruct (nullish b) eqn:Hb; simpl.
  { other_status. }
  destruct (truthy (member b "username")) eqn:Hu; simpl.
  2: { eexists; eexists; split; [reflexivity |]. intros _.
       repeat split. exists key, b. repeat split; auto. left; exact Hu. }
  destruct (truthy (member b "age")) eqn:Ha; simpl.
  2: { eexists; eexists; split; [reflexivity |]. intros _.
       repeat split. exists key, b. repeat split; auto. right; left; exact Ha. }
  destruct (truthy (member b "style")) eqn:Hs; simpl.
  2: { eexists; eexists; split; [reflexivity |]. intros _.
       repeat split. exists key, b. repeat split; auto. right; right; left; exact Hs. }
  destruct (truthy (member b "activity")) eqn:Hact; simpl.
  2: { eexists; eexists; split; [reflexivity |]. intros _.
       repeat split. exists key, b. repeat split; auto. right; right; right; exact Hact. }
  destruct (prompt _ _ _ _) as [sent | e]; simpl.
  2: { caught. }
  destruct (fetch _ _) as [res | e]; simpl.
  2: { caught. }
  destruct (ok res); simpl.
  2: { destruct (text res) as [detail | e]; simpl; [other_status | caught]. }
  destruct (json res) as [data | e]; simpl.
  2: { caught. }
  unfold extract_text, get_prop. destruct (nullish data); simpl.
  { other_status. }
  match goal with |- context [truthy ?v] => destruct (truthy v) end; simpl.
  2: { other_status. }
  match goal with |- context [respond_from_text JSON_parse ?v] =>
    destruct (respond_from_text_normal v) as (resp & t & -> & _ & Hresp) end.
  simpl. other_status.
Qed.

(** With the credential unset or empty the configuration gate answers,
    before the request body is read. *)
Lemma POST_credential_falsy (env : ProcessEnv) (req : NextRequest) :
  truthy (env_value (GEMINI_API_KEY env)) = false ->
  POST JSON_parse fetch env req
  = (Normal {| status := 500;
               body := error_body "GEMINI_API_KEY environment variable not set" |}, []).
Proof.
  intros H. unfold Route.POST, Route.POST_try. rewrite H. reflexivity.
Qed.

(** A request with a missing field is answered 400 by the validation
    gate once the credential is set. *)
Lemma POST_missing_field (key : string) (req : NextRequest) (b : value) :
  key <> "" -> req_json req = Normal b -> nullish b = false -> missing_field b ->
  POST JSON_parse fetch {| GEMINI_API_KEY := Some key |} req
  = (Normal {| status := 400; body := error_body "missing fields" |}, []).
Proof.
  intros Hkey Hreq Hb Hmiss.
  unfold Route.POST, Route.POST_try. simpl env_value.
  rewrite (proj2 (truthy_str key) Hkey). simpl negb. cbv iota.
  rewrite Hreq. simpl. unfold destructure. rewrite Hb. simpl.
  destruct Hmiss as [H | [H | [H | H]]]; rewrite H; simpl;
    repeat match goal with |- context [truthy ?v] => destruct (truthy v); simpl end;
    reflexivity.
Qed.

Ltac error_shape :=
  eexists; eexists; split;
  [ reflexivity
  | left; eexists; split; [reflexivity | split; [discriminate | auto]] ].

Lemma respond_from_text_shape (rawJsonText : value) :
  exists resp t,
    respond_from_text JSON_parse rawJsonText = (Normal resp, t) /\ well_shaped resp.
Proof.
  unfold Route.respond_from_text, Route.parse_fields, check_fields.
  destruct (to_string rawJsonText) as [text | e]; simpl; [| error_shape].
  destruct (JSON_parse text) as [parsed | e]; simpl; [| error_shape].
  unfold get_prop. destruct (nullish parsed); simpl; [error_shape |].
  destruct (truthy (member parsed "city")) eqn:Hc; simpl; [| error_shape].
  destruct (truthy (member parsed "country")) eqn:Hk; simpl; [| error_shape].
  destruct (truthy (member parsed "recommendation")) eqn:Hr; simpl; [| error_shape].
  eexists; eexists; split; [reflexivity |].
  right. split; [reflexivity |].
  exists (member parsed "city"), (member parsed "country"), (member parsed "recommendation").
  split; [| repeat split; assumption].
  unfold NextResponse_json. cbn [body]. apply JSON_wire_fields; assumption.
Qed.

Ltac caught_shape :=
  unfold POST_catch;
  match goal with
  | |- context [instanceof_TypeError ?e] => destruct (instanceof_TypeError e)
  end; simpl; error_shape.

(** Every response of the endpoint is well shaped; in particular its body
    is always an object. *)
Lemma POST_response_shape (env : ProcessEnv) (req : NextRequest) :
  exists resp t,
    POST JSON_parse fetch env req = (Normal resp, t) /\ well_shaped resp.
Proof.
  unfold Route.POST, Route.POST_try.
  destruct env as [[key |]]; simpl; [| error_shape].
  destruct (key =? ""); simpl; [error_shape |].
  destruct req as [[b | e]]; simpl; [| caught_shape].
  unfold destructure. destruct (nullish b); simpl; [error_shape |].
  destruct (truthy (member b "username")); simpl; [| error_shape].
  destruct (truthy (member b "age")); simpl; [| error_shape].
  destruct (truthy (member b "style")); simpl; [| error_shape].
  destruct (truthy (member b "activity")); simpl; [| error_shape].
  destruct (prompt _ _ _ _) as [sent | e]; simpl; [| caught_shape].
  destruct (fetch _ _) as [res | e]; simpl; [| caught_shape].
  destruct (ok res); simpl.
  2: { destruct (text res) as [detail | e]; simpl; [error_shape | caught_shape]. }
  destruct (json res) as [data | e]; simpl; [| caught_shape].
  unfold extract_text, get_prop. destruct (nullish data); simpl; [error_shape |].
  match goal with |- context [truthy ?v] => destruct (truthy v) end; simpl; [| error_shape].
  match goal with |- context [respond_from_text JSON_parse ?v] =>
    destruct (respond_from_text_shape v) as (resp & t & -> & Hshape) end.
  simpl. eexists; eexists; split; [reflexivity | exact Hshape].
Qed.

End Facts.

(** The string conversion of numbers: plain digits below 10^21, an exponent
    from there on and below 10^-6. *)
Example number_to_string_examples :
  number_to_string (number_of_Z 429) = "429" /\
  number_to_string (number_of_Z (10 ^ 20)) = "100000000000000000000" /\
  number_to_string (number_of_Z (10 ^ 21)) = "1e+21" /\
  number_to_string (Finite false 15 301) = "1.5e+300" /\
  number_to_string (Finite true 5 0) = "-0.5" /\
  number_to_string (Finite false 1 (-5)) = "0.000001" /\
  number_to_string (Finite false 1 (-6)) = "1e-7" /\
  number_to_string (Infinite false) = "Infinity".
Proof. repeat split. Qed.

(** A request body that is the JSON value null: the destructuring throws and
    the top-level catch answers. *)
Example POST_null_body :
  POST Samples.JSON_parse Samples.unreachable Samples.configured (Samples.request_of VNull)
  = (Normal {| status := 500; body := error_body "Server processing error" |},
     [ ConsoleError [ LogValue (VStr "Server processing error");
                      LogError (cannot_destructure VNull "body" "username") ];
       ConsoleError [ LogValue (VStr "Possible cause: Request body parsing error (e.g., invalid JSON in POST body)") ] ]).
Proof. reflexivity. Qed.


(** A body field that is an object with a property of its own named
    toString: it is truthy, the template literal cannot convert it, and the
    top-level catch answers before any call. *)
Example POST_unprintable_field :
  POST Samples.JSON_parse (Samples.service_answers (Samples.object_text Samples.lisbon))
       Samples.configured
       (Samples.request_of
          (VObj [ ("username", VObj [ ("toString", VNum (number_of_Z 1)) ]);
                  ("age", VStr "29"); ("style", VStr "Relaxed"); ("activity", VStr "Hiking") ]))
  = (Normal {| status := 500; body := error_body "Server processing error" |},
     [ ConsoleError [ LogValue (VStr "Server processing error"); LogError cannot_convert ];
       ConsoleError [ LogValue (VStr "Possible cause: Request body parsing error (e.g., invalid JSON in POST body)") ] ]).
Proof. reflexivity. Qed.

(** C1 (as amended). With the credential configured and a request body that
    parses to a value other than null, the endpoint responds 400 if and only
    if at least one of username, age, style, activity is falsy in the body;
    and whenever it responds 400 nothing else has happened: no external call
    and no log entry. *)
Theorem POST_400_iff_missing_field
    (JSON_parse : string -> completion value)
    (fetch : string -> value -> completion FetchResponse)
    (key : string) (req : NextRequest) (b : value) :
  key <> "" -> req_json req = Normal b -> nullish b = false ->
  exists resp t,
    POST JSON_parse fetch {| GEMINI_API_KEY := Some key |} req = (Normal resp, t) /\
    (status resp = 400%Z <-> missing_field b) /\
    (status resp = 400%Z -> t = [] /\ no_external_call t).
Proof.
  intros Hkey Hreq Hb.
  destruct (POST_400_inversion JSON_parse fetch {| GEMINI_API_KEY := Some key |} req)
    as (resp & t & Hrun & Hinv).
  exists resp, t. split; [exact Hrun |]. split; [split |].
  - intros H400. destruct (Hinv H400) as (_ & _ & key' & b' & _ & _ & Hreq' & _ & Hmiss).
    rewrite Hreq in Hreq'. injection Hreq' as <-. exact Hmiss.
  - intros Hmiss.
    rewrite (POST_missing_field JSON_parse fetch key req b Hkey Hreq Hb Hmiss) in Hrun.
    injection Hrun as <- _. reflexivity.
  - intros H400. destruct (Hinv H400) as (-> & _). split; [reflexivity |].
    intros ev [].
Qed.

Lemma POST_400_iff_missing_field_witness :
  exists resp t,
    POST Samples.JSON_parse Samples.unreachable {| GEMINI_API_KEY := Some "secret" |}
         (Samples.request_of (VObj [ ("username", VStr "Ana") ])) = (Normal resp, t) /\
    (status resp = 400%Z <-> missing_field (VObj [ ("username", VStr "Ana") ])) /\
    (status resp = 400%Z -> t = [] /\ no_external_call t).
Proof.
  apply (POST_400_iff_missing_field Samples.JSON_parse Samples.unreachable "secret"
           (Samples.request_of (VObj [ ("username", VStr "Ana") ]))
           (VObj [ ("username", VStr "Ana") ])).
  - discriminate.
  - reflexivity.
  - reflexivity.
Defined.

(** C1 (as stated) fails: with the credential unset, a body with all four
    fields missing is answered 500 by the configuration gate, not 400. *)
Lemma missing_fields_without_credential_not_400 :
  ~ (forall (JSON_parse : string -> completion value)
            (fetch : string -> value -> completion FetchResponse)
            (env : ProcessEnv) (req : NextRequest) (b : value) (resp : Response) (t : list event),
        req_json req = Normal b ->
        POST JSON_parse fetch env req = (Normal resp, t) ->
        (status resp = 400%Z <-> missing_field b)).
Proof.
  intros H.
  specialize (H Samples.JSON_parse Samples.unreachable Samples.unconfigured
                (Samples.request_of (VObj [])) (VObj [])
                {| status := 500;
                   body := error_body "GEMINI_API_KEY environment variable not set" |}
                [] eq_refl eq_refl).
  destruct H as [_ H].
  assert (H500 : (500 = 400)%Z) by (apply H; left; reflexivity).
  discriminate H500.
Qed.


Lemma sample_text_extracted (generated : string) :
  generated <> "" ->
  text_extracted (Samples.service_answers generated) Samples.configured
                 (Samples.request_of Samples.ana_body) (VStr generated).
Proof.
  intros Hne.
  exists "secret", Samples.ana_body.
  eexists. eexists. eexists.
  repeat split; try reflexivity; try discriminate.
  simpl. destruct (String.eqb_spec generated ""); [contradiction | reflexivity].
Defined.




(** The same for the three fields together: what passes the checks is
    answered with status 200, each field as it travels in JSON. *)
Lemma POST_success_truthy_fields
    (JSON_parse : string -> completion value)
    (fetch : string -> value -> completion FetchResponse)
    (env : ProcessEnv) (req : NextRequest)
    (rawJsonText : value) (text : string) (parsed : value) :
  text_extracted fetch env req rawJsonText ->
  to_string rawJsonText = Normal text ->
  JSON_parse text = Normal parsed ->
  nullish parsed = false ->
  truthy (member parsed "city") = true -> truthy (member parsed "country") = true ->
  truthy (member parsed "recommendation") = true ->
  outcome (POST JSON_parse fetch env req)
  = Normal {| status := 200;
              body := VObj [ ("city", JSON_wire (member parsed "city"));
                             ("country", JSON_wire (member parsed "country"));
                             ("recommendation", JSON_wire (member parsed "recommendation")) ] |}.
Proof.
  intros Hext Htext Hparse Hnull Hc Hk Hr.
  destruct (POST_text_extracted JSON_parse fetch env req rawJsonText Hext)
    as (url & request & ->).
  rewrite (respond_from_text_parsed JSON_parse _ _ _ Htext Hparse Hnull).
  unfold check_fields. rewrite Hc, Hk, Hr. simpl.
  unfold NextResponse_json. rewrite (JSON_wire_fields _ _ _ Hc Hk Hr). reflexivity.
Qed.

(** C4 (as amended). On full success (credential set, the four input
    fields present, upstream 2xx, text extracted and parsed to a value other
    than null, the three output fields truthy) the response has status 200
    and its body is the object with exactly the keys city, country,
    recommendation, holding the three fields as they travel in JSON; when the
    three fields are strings, the body holds these strings and none is
    empty. *)
Theorem full_success_response
    (JSON_parse : string -> completion value)
    (fetch : string -> value -> completion FetchResponse)
    (env : ProcessEnv) (req : NextRequest)
    (rawJsonText : value) (text : string) (parsed : value) :
  text_extracted fetch env req rawJsonText ->
  to_string rawJsonText = Normal text ->
  JSON_parse text = Normal parsed ->
  nullish parsed = false ->
  truthy (member parsed "city") = true -> truthy (member parsed "country") = true ->
  truthy (member parsed "recommendation") = true ->
  exists resp,
    outcome (POST JSON_parse fetch env req) = Normal resp /\
    status resp = 200%Z /\
    body resp = VObj [ ("city", JSON_wire (member parsed "city"));
                       ("country", JSON_wire (member parsed "country"));
                       ("recommendation", JSON_wire (member parsed "recommendation")) ] /\
    (forall city country recommendation,
       member parsed "city" = VStr city -> member parsed "country" = VStr country ->
       member parsed "recommendation" = VStr recommendation ->
       body resp = VObj [ ("city", VStr city); ("country", VStr country);
                          ("recommendation", VStr recommendation) ] /\
       city <> "" /\ country <> "" /\ recommendation <> "").
Proof.
  intros Hext Htext Hparse Hnull Hc Hk Hr.
  eexists. split; [| split; [| split]].
  - exact (POST_success_truthy_fields JSON_parse fetch env req rawJsonText text parsed
             Hext Htext Hparse Hnull Hc Hk Hr).
  - reflexivity.
  - reflexivity.
  - intros city country recommendation Hcity Hcountry Hrec. cbn [body].
    rewrite Hcity, Hcountry, Hrec in *.
    split; [reflexivity |].
    repeat split; apply truthy_str; assumption.
Qed.

Lemma full_success_response_witness :
  exists resp,
    outcome (POST Samples.JSON_parse
                  (Samples.service_answers (Samples.object_text Samples.lisbon))
                  Samples.configured (Samples.request_of Samples.ana_body)) = Normal resp /\
    status resp = 200%Z /\
    body resp = VObj [ ("city", VStr "Lisbon"); ("country", VStr "Portugal");
                       ("recommendation", VStr "Walk the hills of Alfama. Rest by the river.") ].
Proof.
  destruct (full_success_response
              Samples.JSON_parse
              (Samples.service_answers (Samples.object_text Samples.lisbon))
              Samples.configured (Samples.request_of Samples.ana_body)
              (VStr (Samples.object_text Samples.lisbon))
              (Samples.object_text Samples.lisbon)
              (Samples.object_value Samples.lisbon))
    as (resp & Hrun & Hstatus & Hbody & _).
  - apply sample_text_extracted. discriminate.
  - reflexivity.
  - reflexivity.
  - reflexivity.
  - reflexivity.
  - reflexivity.
  - reflexivity.
  - exists resp. split; [exact Hrun |]. split; [exact Hstatus | exact Hbody].
Defined.

(** C4 (as stated) fails: the checks test truthiness, not the type. With
    the number 7 as city the three fields pass them and the answer is a 200
    whose city is that number, not a non-empty string. *)
Lemma truthy_number_passes_as_city :
  ~ (forall (JSON_parse : string -> completion value)
            (fetch : string -> value -> completion FetchResponse)
            (env : ProcessEnv) (req : NextRequest)
            (rawJsonText : value) (text : string) (parsed : value),
        text_extracted fetch env req rawJsonText ->
        to_string rawJsonText = Normal text ->
        JSON_parse text = Normal parsed ->
        nullish parsed = false ->
        truthy (member parsed "city") = true -> truthy (member parsed "country") = true ->
        truthy (member parsed "recommendation") = true ->
        exists resp city country recommendation,
          outcome (POST JSON_parse fetch env req) = Normal resp /\
          status resp = 200%Z /\
          body resp = VObj [ ("city", VStr city); ("country", VStr country);
                             ("recommendation", VStr recommendation) ] /\
          city <> "" /\ country <> "" /\ recommendation <> "").
Proof.
  intros H.
  assert (Hne : Cases.numbered_text <> "") by discriminate.
  destruct (H Cases.JSON_parse (Samples.service_answers Cases.numbered_text)
              Samples.configured (Samples.request_of Samples.ana_body)
              (VStr Cases.numbered_text) Cases.numbered_text Cases.numbered_value
              (sample_text_extracted Cases.numbered_text Hne)
              eq_refl eq_refl eq_refl eq_refl eq_refl eq_refl)
    as (resp & city & country & recommendation & Hrun & _ & Hbody & _).
  vm_compute in Hrun. injection Hrun as <-. discriminate Hbody.
Qed.


End RouteSpec.

(* ================================================================== *)
(** ** Properties of the client page                                   *)
(* ================================================================== *)

Module PageSpec.
Import Page.

Lemma substring_whole (s : string) : substring 0 (String.length s) s = s.
Proof. induction s as [| c s IH]; simpl; [reflexivity | now rewrite IH]. Qed.

Lemma slice_rest (c : ascii) (rest : string) :
  slice (String c rest) 1 (String.length (String c rest)) = rest.
Proof.
  unfold slice. simpl. rewrite Nat.sub_0_r. apply substring_whole.
Qed.

Lemma capitalise_cons (upper : string -> string) (c : ascii) (rest : string) :
  capitaliseFirstLetter upper (String c rest) = Normal (upper (String c "") ++ rest).
Proof.
  unfold capitaliseFirstLetter. cbn [String.get].
  rewrite slice_rest. reflexivity.
Qed.

Lemma ascii_upper_stable : first_unit_stable ascii_toLocaleUpperCase.
Proof.
  intros c. exists (ascii_upper c), "". split; [reflexivity |].
  destruct c as [[] [] [] [] [] [] [] []]; reflexivity.
Qed.

(** C8. On a non-empty string the result is the upper case of the first
    unit followed by the remainder unchanged; with a platform that maps l to
    L and leaves L alone, lisbon becomes Lisbon and Lisbon stays; and when
    the platform leaves the first unit of its own result alone, capitalising
    a capitalised string changes nothing. *)
Theorem capitalise_first_letter (toLocaleUpperCase : string -> string) :
  (forall c rest,
     capitaliseFirstLetter toLocaleUpperCase (String c rest)
     = Normal (toLocaleUpperCase (String c "") ++ rest)) /\
  (toLocaleUpperCase "l" = "L" ->
   capitaliseFirstLetter toLocaleUpperCase "lisbon" = Normal "Lisbon") /\
  (toLocaleUpperCase "L" = "L" ->
   capitaliseFirstLetter toLocaleUpperCase "Lisbon" = Normal "Lisbon") /\
  (first_unit_stable toLocaleUpperCase ->
   forall s capitalised,
     capitaliseFirstLetter toLocaleUpperCase s = Normal capitalised ->
     capitaliseFirstLetter toLocaleUpperCase capitalised = Normal capitalised).
Proof.
  split; [apply capitalise_cons |].
  split; [intros H; rewrite capitalise_cons, H; reflexivity |].
  split; [intros H; rewrite capitalise_cons, H; reflexivity |].
  intros Hstable s capitalised Hs.
  destruct s as [| c rest]; [discriminate Hs |].
  rewrite capitalise_cons in Hs. injection Hs as <-.
  destruct (Hstable c) as (u & r & Hc & Hu).
  rewrite Hc. cbn [append]. rewrite capitalise_cons, Hu. reflexivity.
Qed.

Lemma capitalise_first_letter_witness :
  capitaliseFirstLetter ascii_toLocaleUpperCase "lisbon" = Normal "Lisbon" /\
  capitaliseFirstLetter ascii_toLocaleUpperCase "Lisbon" = Normal "Lisbon" /\
  (forall s capitalised,
     capitaliseFirstLetter ascii_toLocaleUpperCase s = Normal capitalised ->
     capitaliseFirstLetter ascii_toLocaleUpperCase capitalised = Normal capitalised).
Proof.
  destruct (capitalise_first_letter ascii_toLocaleUpperCase) as (_ & Hl & HL & Hidem).
  split; [apply Hl; reflexivity |].
  split; [apply HL; reflexivity |].
  apply Hidem. exact ascii_upper_stable.
Defined.

(** C9. The function is partial on the empty string: on every non-empty
    input the read of the first unit is in bounds and the function returns
    normally; on the empty string it throws a TypeError and does not return
    the empty string. *)
Theorem capitalise_partial_on_empty (toLocaleUpperCase : string -> string) :
  (forall s, s <> "" ->
     exists first capitalised,
       String.get 0 s = Some first /\
       capitaliseFirstLetter toLocaleUpperCase s = Normal capitalised) /\
  (exists e, capitaliseFirstLetter toLocaleUpperCase "" = Throw e /\ kind e = TypeError) /\
  capitaliseFirstLetter toLocaleUpperCase "" <> Normal "".
Proof.
  split; [| split].
  - intros [| c rest] Hne; [contradiction |].
    exists c. eexists. split; [reflexivity | apply capitalise_cons].
  - eexists. split; reflexivity.
  - discriminate.
Qed.

Section Submission.
Variable fetch : string -> value -> completion Response.
Variable addDoc : string -> DocumentData -> completion unit.

(** A response that is not ok never leads to a write, whatever its body
    is: a body that does not parse, or the value null, ends [onSubmit] with
    an exception after the fetch, before the store is reached. *)
Lemma not_ok_never_writes (data : FormData) (res : Response) :
  fetch "/api/recommend" (request_body data) = Normal res ->
  ok res = false ->
  store_untouched (trace (onSubmit fetch addDoc data)).
Proof.
  intros Hfetch Hok. unfold onSubmit. simpl. rewrite Hfetch. simpl.
  destruct (json res) as [b | e]; simpl.
  - rewrite Hok. simpl. unfold get_prop. destruct (nullish b); simpl.
    + intros ev Hin; repeat destruct Hin as [<- | Hin]; try reflexivity; destruct Hin.
    + destruct (to_string _) as [text | e]; simpl;
        intros ev Hin; repeat destruct Hin as [<- | Hin]; try reflexivity; destruct Hin.
  - intros ev Hin; repeat destruct Hin as [<- | Hin]; try reflexivity; destruct Hin.
Qed.

(** A network failure ends [onSubmit] after the fetch. *)
Lemma fetch_failure_never_writes (data : FormData) (e : exn) :
  fetch "/api/recommend" (request_body data) = Throw e ->
  onSubmit fetch addDoc data = (Throw e, [ Fetch "/api/recommend" (request_body data) ]).
Proof.
  intros Hfetch. unfold onSubmit. simpl. rewrite Hfetch. reflexivity.
Qed.

(** After an answer that is not successful, [onSubmit] either throws
    right after the fetch or shows one alert and returns. *)
Lemma onSubmit_unsuccessful (data : FormData) (res : Response) :
  fetch "/api/recommend" (request_body data) = Normal res ->
  (ok res = false \/
   exists body, json res = Normal body /\ nullish body = false /\
                truthy (member body "error") = true) ->
  (exists e,
     onSubmit fetch addDoc data
     = (Throw e, [ Fetch "/api/recommend" (request_body data) ])) \/
  (exists text,
     onSubmit fetch addDoc data
     = (Normal tt, [ Fetch "/api/recommend" (request_body data); Alert text ])).
Proof.
  intros Hfetch Hfail. unfold onSubmit. simpl. rewrite Hfetch. simpl.
  destruct (json res) as [b | e] eqn:Hjson; simpl.
  2: { left. eexists; reflexivity. }
  unfold get_prop.
  destruct (ok res) eqn:Hok; simpl.
  - destruct Hfail as [Hfalse | (body & Hbody & Hnull & Herr)]; [discriminate Hfalse |].
    injection Hbody as <-. rewrite Hnull. simpl. rewrite Herr. simpl.
    destruct (to_string _) as [text | e]; simpl.
    + right. eexists; reflexivity.
    + left. eexists; reflexivity.
  - destruct (nullish b); simpl; [left; eexists; reflexivity |].
    destruct (to_string _) as [text | e]; simpl.
    + right. eexists; reflexivity.
    + left. eexists; reflexivity.
Qed.

End Submission.

Lemma onSubmit_failed
    (fetch : string -> value -> completion Response)
    (addDoc : string -> DocumentData -> completion unit)
    (data : FormData) (res : Response) (body : value) (text : string) :
  fetch "/api/recommend" (request_body data) = Normal res ->
  json res = Normal body -> nullish body = false ->
  ok res = false \/ truthy (member body "error") = true ->
  to_string (coalesce (member body "error") (VStr "unknown")) = Normal text ->
  onSubmit fetch addDoc data
  = (Normal tt,
     [ Fetch "/api/recommend" (request_body data);
       Alert ("Recommendation failed: " ++ text) ]).
Proof.
  intros Hfetch Hjson Hbody Hfail Htext.
  unfold onSubmit. simpl. rewrite Hfetch. simpl. rewrite Hjson. simpl.
  unfold get_prop. rewrite Hbody.
  destruct (ok res); simpl.
  - destruct Hfail as [Hok | Herr]; [discriminate Hok |].
    rewrite Herr. simpl. rewrite Htext. reflexivity.
  - rewrite Htext. reflexivity.
Qed.

(** X16. Every answer of the endpoint other than a 200 reaches the user as
    an alert carrying the error message of the endpoint, and nothing is
    stored. *)
Lemma endpoint_failure_is_alerted
    (JSON_parse : string -> completion value)
    (upstream : string -> value -> completion Route.FetchResponse)
    (env : Route.ProcessEnv)
    (addDoc : string -> DocumentData -> completion unit)
    (data : FormData) (resp : Route.Response) :
  outcome (Route.POST JSON_parse upstream env {| Route.req_json := Normal (request_body data) |})
  = Normal resp ->
  Route.status resp <> 200%Z ->
  exists msg,
    Route.body resp = Route.error_body msg /\
    onSubmit (System.served JSON_parse upstream env) addDoc data
    = (Normal tt,
       [ Fetch "/api/recommend" (request_body data);
         Alert ("Recommendation failed: " ++ msg) ]).
Proof.
  intros Hrun Hstatus.
  destruct (RouteSpec.POST_response_shape JSON_parse upstream env
              {| Route.req_json := Normal (request_body data) |})
    as (resp' & t & Hpost & Hshape).
  rewrite Hpost in Hrun. injection Hrun as ->.
  destruct Hshape as [(msg & Hbody & Hmsg & Hst) | (H200 & _)]; [| contradiction].
  exists msg. split; [exact Hbody |].
  apply (onSubmit_failed (System.served JSON_parse upstream env) addDoc data
           {| ok := ((200 <=? Route.status resp) && (Route.status resp <=? 299))%Z;
              json := Normal (Route.body resp) |}
           (Route.body resp) msg).
  - unfold System.served. cbn [JSON_wire request_body map filter snd negb is_undefined].
    fold (request_body data). rewrite Hpost. reflexivity.
  - reflexivity.
  - rewrite Hbody. reflexivity.
  - left. simpl. destruct Hst as [-> | ->]; reflexivity.
  - rewrite Hbody. simpl.
    destruct (String.eqb_spec msg ""); [contradiction | reflexivity].
Qed.

Lemma endpoint_failure_is_alerted_witness :
  exists msg,
    Route.error_body "missing fields" = Route.error_body msg /\
    onSubmit (System.served Samples.JSON_parse Samples.unreachable Samples.configured)
             Samples.store_accepts defaultValues
    = (Normal tt,
       [ Fetch "/api/recommend" (request_body defaultValues);
         Alert ("Recommendation failed: " ++ msg) ]).
Proof.
  apply (endpoint_failure_is_alerted Samples.JSON_parse Samples.unreachable Samples.configured
           Samples.store_accepts defaultValues
           {| Route.status := 400; Route.body := Route.error_body "missing fields" |}).
  - reflexivity.
  - discriminate.
Defined.

(** A failed response whose body is the JSON value null: reading its error
    for the alert throws, so no alert is shown; the store is not reached. *)
Example onSubmit_not_ok_null_body :
  onSubmit (Samples.endpoint_answers {| ok := false; json := Normal VNull |})
           Samples.store_accepts Samples.ana
  = (Throw (cannot_read VNull "error"),
     [ Fetch "/api/recommend" (request_body Samples.ana) ]).
Proof. reflexivity. Qed.

(** C6 (as amended). When the response of the endpoint is not successful
    (its status is not 2xx, or its body has a truthy error field),
    [onSubmit] stops without touching the store or the form: no record is
    written and the form is not reset. The error is shown in an alert, the
    only effect after the fetch, whenever the body is JSON other than null
    and its error (or "unknown" in its place) has a string conversion, as the
    error of every answer of this endpoint has. *)
Theorem failed_response_alerts_and_stops
    (fetch : string -> value -> completion Response)
    (addDoc : string -> DocumentData -> completion unit)
    (data : FormData) (res : Response) :
  fetch "/api/recommend" (request_body data) = Normal res ->
  (ok res = false \/
   exists body, json res = Normal body /\ nullish body = false /\
                truthy (member body "error") = true) ->
  store_untouched (trace (onSubmit fetch addDoc data)) /\
  ~ In Reset (trace (onSubmit fetch addDoc data)) /\
  (forall body text,
     json res = Normal body -> nullish body = false ->
     to_string (coalesce (member body "error") (VStr "unknown")) = Normal text ->
     onSubmit fetch addDoc data
     = (Normal tt,
        [ Fetch "/api/recommend" (request_body data);
          Alert ("Recommendation failed: " ++ text) ])).
Proof.
  intros Hfetch Hfail.
  split; [| split].
  - destruct (onSubmit_unsuccessful fetch addDoc data res Hfetch Hfail)
      as [(e & ->) | (text & ->)]; intros ev Hin; simpl in Hin;
      repeat (destruct Hin as [<- | Hin]; [reflexivity |]); destruct Hin.
  - destruct (onSubmit_unsuccessful fetch addDoc data res Hfetch Hfail)
      as [(e & ->) | (text & ->)]; intros Hin; simpl in Hin;
      repeat (destruct Hin as [Hin | Hin]; [discriminate Hin |]); destruct Hin.
  - intros body text Hjson Hnull Htext.
    apply (onSubmit_failed fetch addDoc data res body text Hfetch Hjson Hnull); [| exact Htext].
    destruct Hfail as [Hok | (body' & Hjson' & _ & Herr)]; [left; exact Hok |].
    rewrite Hjson in Hjson'. injection Hjson' as <-. right. exact Herr.
Qed.

Lemma failed_response_alerts_and_stops_witness :
  store_untouched
    (trace (onSubmit (Samples.endpoint_answers Samples.missing_fields_response)
                     Samples.store_accepts Samples.ana)) /\
  onSubmit (Samples.endpoint_answers Samples.missing_fields_response)
           Samples.store_accepts Samples.ana
  = (Normal tt,
     [ Fetch "/api/recommend" (request_body Samples.ana);
       Alert "Recommendation failed: missing fields" ]).
Proof.
  destruct (failed_response_alerts_and_stops
              (Samples.endpoint_answers Samples.missing_fields_response)
              Samples.store_accepts Samples.ana Samples.missing_fields_response)
    as (Hstore & _ & Halert).
  - reflexivity.
  - left. reflexivity.
  - split; [exact Hstore |].
    apply (Halert (VObj [ ("error", VStr "missing fields") ]) "missing fields");
      reflexivity.
Defined.

(** C6 (as stated) fails: a response that is not 2xx and whose body is the
    JSON value null is not successful, and no alert is shown for it: reading
    the error of null throws first. *)
Lemma null_body_is_not_alerted :
  ~ (forall (fetch : string -> value -> completion Response)
            (addDoc : string -> DocumentData -> completion unit)
            (data : FormData) (res : Response),
        fetch "/api/recommend" (request_body data) = Normal res ->
        ok res = false ->
        exists text, In (Alert text) (trace (onSubmit fetch addDoc data))).
Proof.
  intros H.
  destruct (H (Samples.endpoint_answers {| ok := false; json := Normal VNull |})
              Samples.store_accepts Samples.ana {| ok := false; json := Normal VNull |}
              eq_refl eq_refl) as (text & Hin).
  rewrite onSubmit_not_ok_null_body in Hin. simpl in Hin.
  destruct Hin as [Hin | []]. discriminate Hin.
Qed.

(** C10. On a successful response (2xx, no truthy error field) the record
    handed to the store holds, for each of city, country, recommendation,
    "Unknown" exactly when the field is null or undefined in the body, and
    the field as it came otherwise; so a field that is the empty string is
    stored as the empty string. *)
Theorem unknown_only_for_null_or_undefined
    (fetch : string -> value -> completion Response)
    (addDoc : string -> DocumentData -> completion unit)
    (data : FormData) (res : Response) (body : value) :
  fetch "/api/recommend" (request_body data) = Normal res ->
  ok res = true -> json res = Normal body -> nullish body = false ->
  truthy (member body "error") = false ->
  exists doc rest,
    trace (onSubmit fetch addDoc data)
    = Fetch "/api/recommend" (request_body data) :: AddDoc "recommendations" doc :: rest /\
    doc = [ ("username", Data (VStr (username data)));
            ("age", Data (VStr (age data)));
            ("style", Data (VStr (style data)));
            ("activity", Data (VStr (activity data)));
            ("city", Data (if nullish (member body "city") then VStr "Unknown"
                           else member body "city"));
            ("country", Data (if nullish (member body "country") then VStr "Unknown"
                              else member body "country"));
            ("recommendation",
             Data (if nullish (member body "recommendation") then VStr "Unknown"
                   else member body "recommendation"));
            ("createdAt", ServerTimestamp) ] /\
    (member body "city" = VStr "" -> In ("city", Data (VStr "")) doc) /\
    (member body "country" = VStr "" -> In ("country", Data (VStr "")) doc) /\
    (member body "recommendation" = VStr "" -> In ("recommendation", Data (VStr "")) doc).
Proof.
  intros Hfetch Hok Hjson Hbody Herr.
  unfold onSubmit. simpl. rewrite Hfetch. simpl. rewrite Hjson. simpl.
  rewrite Hok. simpl. unfold get_prop. rewrite Hbody. simpl. rewrite Herr. simpl.
  unfold record, coalesce.
  destruct (addDoc _ _) as [[] | e]; simpl;
    (eexists; eexists; split; [reflexivity |]; split; [reflexivity |]);
    repeat split; intros ->; simpl; auto 10.
Qed.

Lemma unknown_only_for_null_or_undefined_witness :
  exists doc rest,
    trace (onSubmit (Samples.endpoint_answers Samples.hollow_response)
                    Samples.store_accepts Samples.ana)
    = Fetch "/api/recommend" (request_body Samples.ana)
      :: AddDoc "recommendations" doc :: rest /\
    In ("city", Data (VStr "")) doc /\
    In ("country", Data (VStr "Unknown")) doc /\
    In ("recommendation", Data (VStr "Unknown")) doc.
Proof.
  destruct (unknown_only_for_null_or_undefined
              (Samples.endpoint_answers Samples.hollow_response)
              Samples.store_accepts Samples.ana
              Samples.hollow_response
              (VObj [ ("city", VStr ""); ("country", VNull) ])
              eq_refl eq_refl eq_refl eq_refl eq_refl)
    as (doc & rest & Htrace & Hdoc & Hc & _).
  exists doc, rest.
  split; [exact Htrace |]. split; [apply Hc; reflexivity |].
  rewrite Hdoc. split; simpl; auto 10.
Defined.

Section Validation.
Variable fetch : string -> value -> completion Response.
Variable addDoc : string -> DocumentData -> completion unit.
Variable too_small_message : nat -> string.

(** X17. With every field long enough the resolver reports nothing and
    [onSubmit] runs on the values. *)
Lemma valid_input_is_submitted (data : FormData) :
  ~ below_minimum data ->
  submit fetch addDoc too_small_message data
  = (onSubmit fetch addDoc data ;; ret []).
Proof.
  unfold below_minimum, submit, handleSubmit, FormSchema, zodResolver, field_value, min.
  intros Hvalid.
  destruct (Nat.ltb_spec (String.length (username data)) 2); [tauto |].
  destruct (Nat.ltb_spec (String.length (age data)) 1); [tauto |].
  destruct (Nat.ltb_spec (String.length (style data)) 3); [tauto |].
  destruct (Nat.ltb_spec (String.length (activity data)) 3); [tauto |].
  reflexivity.
Qed.
End Validation.

Lemma valid_input_is_submitted_witness :
  submit (Samples.endpoint_answers Cases.lisbon_response) Samples.store_accepts
         Samples.at_least Cases.shortest
  = (onSubmit (Samples.endpoint_answers Cases.lisbon_response) Samples.store_accepts
              Cases.shortest ;; ret []).
Proof.
  apply (valid_input_is_submitted (Samples.endpoint_answers Cases.lisbon_response)
           Samples.store_accepts Samples.at_least Cases.shortest).
  unfold below_minimum. simpl. lia.
Defined.

(** C7. When some field is below its minimum length (username 2, age 1,
    style 3, activity 3), submitting the form does nothing but set the
    errors: no network call is issued (the trace is empty), and each field
    below its minimum, and only such a field, gets the message of its own
    minimum rendered. So [onSubmit] runs only when all four fields pass. *)
Theorem short_field_blocks_submission
    (fetch : string -> value -> completion Response)
    (addDoc : string -> DocumentData -> completion unit)
    (too_small_message : nat -> string)
    (data : FormData) :
  below_minimum data ->
  exists errors,
    submit fetch addDoc too_small_message data = (Normal errors, []) /\
    no_network_call (trace (submit fetch addDoc too_small_message data)) /\
    rendered_message errors Username
      = (if (String.length (username data) <? 2)%nat then Some (too_small_message 2) else None) /\
    rendered_message errors Age
      = (if (String.length (age data) <? 1)%nat then Some (too_small_message 1) else None) /\
    rendered_message errors Style
      = (if (String.length (style data) <? 3)%nat then Some (too_small_message 3) else None) /\
    rendered_message errors Activity
      = (if (String.length (activity data) <? 3)%nat then Some (too_small_message 3) else None) /\
    exists f message, rendered_message errors f = Some message.
Proof.
  unfold below_minimum, submit, handleSubmit, FormSchema, zodResolver, field_value, min.
  intros Hshort.
  destruct (Nat.ltb_spec (String.length (username data)) 2) as [Hu | Hu];
  destruct (Nat.ltb_spec (String.length (age data)) 1) as [Ha | Ha];
  destruct (Nat.ltb_spec (String.length (style data)) 3) as [Hs | Hs];
  destruct (Nat.ltb_spec (String.length (activity data)) 3) as [Hact | Hact];
  try (exfalso; lia);
  (eexists; split; [reflexivity |]; split; [intros ev [] |];
   repeat (split; [reflexivity |]));
  first [ exists Username; eexists; reflexivity
        | exists Age; eexists; reflexivity
        | exists Style; eexists; reflexivity
        | exists Activity; eexists; reflexivity ].
Qed.

Lemma short_field_blocks_submission_witness :
  exists errors,
    submit Samples.unreachable Samples.store_accepts Samples.at_least Samples.short_name
    = (Normal errors, []) /\
    rendered_message errors Username = Some "at least 2" /\
    rendered_message errors Age = None.
Proof.
  destruct (short_field_blocks_submission
              Samples.unreachable Samples.store_accepts Samples.at_least Samples.short_name)
    as (errors & Hrun & _ & Hu & Ha & _).
  - left. simpl. lia.
  - exists errors. split; [exact Hrun |]. split; [exact Hu | exact Ha].
Defined.

End PageSpec.


(* ================================================================== *)
(** ** The endpoint, path by path                                      *)
(* ================================================================== *)

Module RoutePathsSpec.
Import Route RoutePaths.

Local Opaque prompt apiUrl payload.


Section Paths.
Variable JSON_parse : string -> completion value.
Variable fetch : string -> value -> completion FetchResponse.



End Paths.










Section Calls.
Variable JSON_parse : string -> completion value.
Variable fetch : string -> value -> completion FetchResponse.







End Calls.








(** X9. The text is read from the first candidate's first part, whatever
    follows them; a path that breaks off at any link gives undefined instead
    of an exception; only an answer that is itself null or undefined
    throws. *)
Theorem extract_text_paths :
  (forall generated parts candidates,
     extract_text
       (VObj [ ("candidates",
                VArr (VObj [ ("content",
                              VObj [ ("parts", VArr (VObj [ ("text", generated) ] :: parts)) ]) ]
                      :: candidates)) ])
     = Normal generated) /\
  (forall data, nullish data = false -> exists v, extract_text data = Normal v) /\
  (forall data, nullish data = false -> nullish (member data "candidates") = true ->
     extract_text data = Normal VUndefined) /\
  (forall data, nullish data = true ->
     extract_text data = Throw (cannot_read data "candidates")).
Proof.
  repeat split.
  - intros data Hdata. unfold extract_text, get_prop. rewrite Hdata. eexists; reflexivity.
  - intros data Hdata Hcand. unfold extract_text, get_prop. rewrite Hdata.
    unfold opt_index at 2. rewrite Hcand. reflexivity.
  - intros data Hdata. unfold extract_text, get_prop. rewrite Hdata. reflexivity.
Qed.

End RoutePathsSpec.


(* ================================================================== *)
(** ** The submission, path by path                                    *)
(* ================================================================== *)

Module PagePathsSpec.
Import Page PagePaths.

Section Paths.
Variable fetch : string -> value -> completion Response.
Variable addDoc : string -> DocumentData -> completion unit.

(** The four ways a submission can go. *)
Lemma onSubmit_cases (data : FormData) :
  (exists e,
     onSubmit fetch addDoc data
     = (Throw e, [ Fetch "/api/recommend" (request_body data) ])) \/
  (exists text,
     onSubmit fetch addDoc data
     = (Normal tt, [ Fetch "/api/recommend" (request_body data); Alert text ])) \/
  (exists body e,
     onSubmit fetch addDoc data
     = (Throw e,
        [ Fetch "/api/recommend" (request_body data);
          AddDoc "recommendations"
                 (record data (coalesce (member body "city") Unknown)
                              (coalesce (member body "country") Unknown)
                              (coalesce (member body "recommendation") Unknown)) ])) \/
  (exists body,
     onSubmit fetch addDoc data
     = (Normal tt,
        [ Fetch "/api/recommend" (request_body data);
          AddDoc "recommendations"
                 (record data (coalesce (member body "city") Unknown)
                              (coalesce (member body "country") Unknown)
                              (coalesce (member body "recommendation") Unknown));
          Reset ])).
Proof.
  unfold onSubmit. simpl.
  destruct (fetch _ _) as [res | e]; simpl; [| left; eexists; reflexivity].
  destruct (json res) as [body | e]; simpl; [| left; eexists; reflexivity].
  unfold get_prop. destruct (ok res); simpl.
  - destruct (nullish body); simpl; [left; eexists; reflexivity |].
    destruct (truthy (member body "error")); simpl.
    + destruct (to_string _) as [text | e]; simpl.
      * right; left. eexists; reflexivity.
      * left. eexists; reflexivity.
    + destruct (addDoc _ _) as [[] | e]; simpl.
      * right; right; right. exists body. reflexivity.
      * right; right; left. exists body, e. reflexivity.
  - destruct (nullish body); simpl.
    + left; eexists; reflexivity.
    + destruct (to_string _) as [text | e]; simpl.
      * right; left. eexists; reflexivity.
      * left. eexists; reflexivity.
Qed.

End Paths.

(** X10. On a successful response, with a store that accepts the write,
    the submission is: the fetch, one record added to the collection
    recommendations (the four submitted fields as submitted, the three result
    fields, the server timestamp), then the reset of the form. *)
Theorem successful_submission
    (fetch : string -> value -> completion Response)
    (addDoc : string -> DocumentData -> completion unit)
    (data : FormData) (res : Response) (body : value) :
  fetch "/api/recommend" (request_body data) = Normal res ->
  ok res = true -> json res = Normal body -> nullish body = false ->
  truthy (member body "error") = false ->
  addDoc "recommendations"
         (record data (coalesce (member body "city") Unknown)
                      (coalesce (member body "country") Unknown)
                      (coalesce (member body "recommendation") Unknown)) = Normal tt ->
  onSubmit fetch addDoc data
  = (Normal tt,
     [ Fetch "/api/recommend" (request_body data);
       AddDoc "recommendations"
              [ ("username", Data (VStr (username data)));
                ("age", Data (VStr (age data)));
                ("style", Data (VStr (style data)));
                ("activity", Data (VStr (activity data)));
                ("city", Data (coalesce (member body "city") Unknown));
                ("country", Data (coalesce (member body "country") Unknown));
                ("recommendation", Data (coalesce (member body "recommendation") Unknown));
                ("createdAt", ServerTimestamp) ];
       Reset ]).
Proof.
  intros Hfetch Hok Hjson Hbody Herr Hadd.
  unfold onSubmit. simpl. rewrite Hfetch. simpl. rewrite Hjson. simpl.
  rewrite Hok. simpl. unfold get_prop. rewrite Hbody. simpl. rewrite Herr. simpl.
  fold Unknown. rewrite Hadd. reflexivity.
Qed.

Lemma successful_submission_witness :
  onSubmit (Samples.endpoint_answers Cases.lisbon_response) Samples.store_accepts Samples.ana
  = (Normal tt,
     [ Fetch "/api/recommend" (request_body Samples.ana);
       AddDoc "recommendations"
              [ ("username", Data (VStr "Ana")); ("age", Data (VStr "29"));
                ("style", Data (VStr "Relaxed")); ("activity", Data (VStr "Hiking"));
                ("city", Data (VStr "Lisbon")); ("country", Data (VStr "Portugal"));
                ("recommendation", Data (VStr "Walk the hills of Alfama. Rest by the river."));
                ("createdAt", ServerTimestamp) ];
       Reset ]).
Proof.
  exact (successful_submission (Samples.endpoint_answers Cases.lisbon_response)
           Samples.store_accepts Samples.ana Cases.lisbon_response
           (Samples.object_value Samples.lisbon)
           eq_refl eq_refl eq_refl eq_refl eq_refl eq_refl).
Defined.

(** X11. When the store refuses the write, the exception leaves
    [onSubmit] uncaught: no alert is shown and the form is not reset. *)
Theorem store_failure_is_not_handled
    (fetch : string -> value -> completion Response)
    (addDoc : string -> DocumentData -> completion unit)
    (data : FormData) (res : Response) (body : value) (e : exn) :
  fetch "/api/recommend" (request_body data) = Normal res ->
  ok res = true -> json res = Normal body -> nullish body = false ->
  truthy (member body "error") = false ->
  addDoc "recommendations"
         (record data (coalesce (member body "city") Unknown)
                      (coalesce (member body "country") Unknown)
                      (coalesce (member body "recommendation") Unknown)) = Throw e ->
  onSubmit fetch addDoc data
  = (Throw e,
     [ Fetch "/api/recommend" (request_body data);
       AddDoc "recommendations"
              (record data (coalesce (member body "city") Unknown)
                           (coalesce (member body "country") Unknown)
                           (coalesce (member body "recommendation") Unknown)) ]).
Proof.
  intros Hfetch Hok Hjson Hbody Herr Hadd.
  unfold onSubmit. simpl. rewrite Hfetch. simpl. rewrite Hjson. simpl.
  rewrite Hok. simpl. unfold get_prop. rewrite Hbody. simpl. rewrite Herr. simpl.
  fold Unknown. rewrite Hadd. reflexivity.
Qed.

Lemma store_failure_is_not_handled_witness :
  onSubmit (Samples.endpoint_answers Cases.lisbon_response) Cases.store_refuses Samples.ana
  = (Throw {| kind := OtherError; message := "permission-denied" |},
     [ Fetch "/api/recommend" (request_body Samples.ana);
       AddDoc "recommendations"
              (record Samples.ana (VStr "Lisbon") (VStr "Portugal")
                      (VStr "Walk the hills of Alfama. Rest by the river.")) ]).
Proof.
  exact (store_failure_is_not_handled (Samples.endpoint_answers Cases.lisbon_response)
           Cases.store_refuses Samples.ana Cases.lisbon_response
           (Samples.object_value Samples.lisbon) _
           eq_refl eq_refl eq_refl eq_refl eq_refl eq_refl).
Defined.

(** X12. When the body of the answer is not JSON, whatever its status,
    [onSubmit] ends with the exception of [res.json()] right after the fetch:
    no alert, no write, no reset. *)
Theorem unparseable_answer_is_not_alerted
    (fetch : string -> value -> completion Response)
    (addDoc : string -> DocumentData -> completion unit)
    (data : FormData) (res : Response) (e : exn) :
  fetch "/api/recommend" (request_body data) = Normal res ->
  json res = Throw e ->
  onSubmit fetch addDoc data
  = (Throw e, [ Fetch "/api/recommend" (request_body data) ]).
Proof.
  intros Hfetch Hjson.
  unfold onSubmit. simpl. rewrite Hfetch. simpl. rewrite Hjson. reflexivity.
Qed.

Lemma unparseable_answer_is_not_alerted_witness :
  onSubmit (Samples.endpoint_answers Cases.html_response) Samples.store_accepts Samples.ana
  = (Throw {| kind := SyntaxError; message := "Unexpected token" |},
     [ Fetch "/api/recommend" (request_body Samples.ana) ]).
Proof.
  exact (unparseable_answer_is_not_alerted (Samples.endpoint_answers Cases.html_response)
           Samples.store_accepts Samples.ana Cases.html_response _ eq_refl eq_refl).
Defined.

(** X13. Whatever the network and the store do, a submission issues
    exactly one fetch, first, and then does one of: nothing more; one alert;
    one write to recommendations; one write followed by the reset. So it
    never both alerts and writes, never writes twice, and resets the form
    only after a write, and then it returns normally. *)
Theorem submission_shapes
    (fetch : string -> value -> completion Response)
    (addDoc : string -> DocumentData -> completion unit)
    (data : FormData) :
  exists rest,
    trace (onSubmit fetch addDoc data)
    = Fetch "/api/recommend" (request_body data) :: rest /\
    (rest = [] \/
     (exists text, rest = [ Alert text ]) \/
     (exists doc, rest = [ AddDoc "recommendations" doc ]) \/
     (exists doc, rest = [ AddDoc "recommendations" doc; Reset ])) /\
    (In Reset rest -> outcome (onSubmit fetch addDoc data) = Normal tt).
Proof.
  destruct (onSubmit_cases fetch addDoc data)
    as [(e & ->) | [(text & ->) | [(body & e & ->) | (body & ->)]]];
    eexists; (split; [reflexivity |]); split.
  - left. reflexivity.
  - intros [].
  - right; left. eexists; reflexivity.
  - intros _. reflexivity.
  - right; right; left. eexists; reflexivity.
  - intros [H | []]. discriminate H.
  - right; right; right. eexists; reflexivity.
  - intros _. reflexivity.
Qed.

(** X14. No field of a record handed to the store is null or undefined:
    the submitted fields are strings and the three result fields have been
    defaulted. *)
Theorem written_fields_are_defined
    (fetch : string -> value -> completion Response)
    (addDoc : string -> DocumentData -> completion unit)
    (data : FormData) (collection : string) (doc : DocumentData) (k : string) (v : value) :
  In (AddDoc collection doc) (trace (onSubmit fetch addDoc data)) ->
  In (k, Data v) doc ->
  nullish v = false.
Proof.
  assert (Hdefault : forall x, nullish (coalesce x Unknown) = false).
  { intros x. unfold coalesce. destruct (nullish x) eqn:Hx; [reflexivity | exact Hx]. }
  intros Hin Hfield.
  destruct (onSubmit_cases fetch addDoc data)
    as [(e & Hrun) | [(text & Hrun) | [(body & e & Hrun) | (body & Hrun)]]];
    rewrite Hrun in Hin; simpl in Hin.
  - destruct Hin as [Hin | []]; discriminate Hin.
  - destruct Hin as [Hin | [Hin | []]]; discriminate Hin.
  - destruct Hin as [Hin | [Hin | []]]; [discriminate Hin |].
    injection Hin as _ <-. simpl in Hfield.
    repeat (destruct Hfield as [Hfield | Hfield];
            [injection Hfield as _ <-; first [reflexivity | apply Hdefault] |]).
    destruct Hfield as [Hfield | []]. discriminate Hfield.
  - destruct Hin as [Hin | [Hin | [Hin | []]]]; [discriminate Hin | | discriminate Hin].
    injection Hin as _ <-. simpl in Hfield.
    repeat (destruct Hfield as [Hfield | Hfield];
            [injection Hfield as _ <-; first [reflexivity | apply Hdefault] |]).
    destruct Hfield as [Hfield | []]. discriminate Hfield.
Qed.

Lemma written_fields_are_defined_witness :
  nullish (coalesce VNull Unknown) = false.
Proof.
  apply (written_fields_are_defined (Samples.endpoint_answers Samples.hollow_response)
           Samples.store_accepts Samples.ana "recommendations"
           (record Samples.ana (VStr "") Unknown Unknown) "country" (coalesce VNull Unknown)).
  - right. left. reflexivity.
  - do 5 right. left. reflexivity.
Defined.

(** X15. In front of this endpoint the defaulting applies to null only:
    when the endpoint answers 200, each of city, country, recommendation of
    its body is truthy or null, and the record handed to the store holds the
    field itself, "Unknown" standing in for null. *)
Theorem endpoint_success_is_stored
    (JSON_parse : string -> completion value)
    (upstream : string -> value -> completion Route.FetchResponse)
    (env : Route.ProcessEnv)
    (addDoc : string -> DocumentData -> completion unit)
    (data : FormData) (resp : Route.Response) :
  outcome (Route.POST JSON_parse upstream env {| Route.req_json := Normal (request_body data) |})
  = Normal resp ->
  Route.status resp = 200%Z ->
  exists city country recommendation rest,
    Route.body resp = VObj [ ("city", city); ("country", country);
                             ("recommendation", recommendation) ] /\
    (truthy city = true \/ city = VNull) /\
    (truthy country = true \/ country = VNull) /\
    (truthy recommendation = true \/ recommendation = VNull) /\
    trace (onSubmit (System.served JSON_parse upstream env) addDoc data)
    = Fetch "/api/recommend" (request_body data)
      :: AddDoc "recommendations"
           [ ("username", Data (VStr (username data)));
             ("age", Data (VStr (age data)));
             ("style", Data (VStr (style data)));
             ("activity", Data (VStr (activity data)));
             ("city", Data (if nullish city then VStr "Unknown" else city));
             ("country", Data (if nullish country then VStr "Unknown" else country));
             ("recommendation",
              Data (if nullish recommendation then VStr "Unknown" else recommendation));
             ("createdAt", ServerTimestamp) ]
      :: rest.
Proof.
  intros Hrun H200.
  assert (Hwire : forall v, truthy v = true ->
            truthy (JSON_wire v) = true \/ JSON_wire v = VNull).
  { intros v Hv. destruct (RouteSpec.JSON_wire_truthy v Hv) as [H | (H & _)]; auto. }
  destruct (RouteSpec.POST_response_shape JSON_parse upstream env
              {| Route.req_json := Normal (request_body data) |})
    as (resp' & t & Hpost & Hshape).
  rewrite Hpost in Hrun. injection Hrun as ->.
  destruct Hshape as [(msg & _ & _ & [Hst | Hst]) | (_ & c & k & r & Hbody & Hc & Hk & Hr)];
    try (rewrite Hst in H200; discriminate H200).
  exists (JSON_wire c), (JSON_wire k), (JSON_wire r).
  assert (Hrest : exists rest,
    trace (onSubmit (System.served JSON_parse upstream env) addDoc data)
    = Fetch "/api/recommend" (request_body data)
      :: AddDoc "recommendations"
           (record data (coalesce (JSON_wire c) Unknown) (coalesce (JSON_wire k) Unknown)
                        (coalesce (JSON_wire r) Unknown))
      :: rest).
  { unfold onSubmit, System.served.
    cbn [JSON_wire request_body map filter snd negb is_undefined].
    fold (request_body data). rewrite Hpost. simpl.
    rewrite H200, Hbody. simpl.
    destruct (addDoc _ _) as [[] | e]; simpl; eexists; reflexivity. }
  destruct Hrest as (rest & Hrest). exists rest.
  split; [exact Hbody |].
  split; [apply Hwire; exact Hc |]. split; [apply Hwire; exact Hk |].
  split; [apply Hwire; exact Hr |]. exact Hrest.
Qed.

Lemma endpoint_success_is_stored_witness :
  exists city country recommendation rest,
    VObj [ ("city", VStr "Lisbon"); ("country", VStr "Portugal");
           ("recommendation", VStr "Walk the hills of Alfama. Rest by the river.") ]
    = VObj [ ("city", city); ("country", country); ("recommendation", recommendation) ] /\
    trace (onSubmit (System.served Samples.JSON_parse
                       (Samples.service_answers (Samples.object_text Samples.lisbon))
                       Samples.configured)
                    Samples.store_accepts Samples.ana)
    = Fetch "/api/recommend" (request_body Samples.ana)
      :: AddDoc "recommendations"
           [ ("username", Data (VStr "Ana")); ("age", Data (VStr "29"));
             ("style", Data (VStr "Relaxed")); ("activity", Data (VStr "Hiking"));
             ("city", Data (if nullish city then VStr "Unknown" else city));
             ("country", Data (if nullish country then VStr "Unknown" else country));
             ("recommendation",
              Data (if nullish recommendation then VStr "Unknown" else recommendation));
             ("createdAt", ServerTimestamp) ]
      :: rest.
Proof.
  destruct (endpoint_success_is_stored Samples.JSON_parse
              (Samples.service_answers (Samples.object_text Samples.lisbon))
              Samples.configured Samples.store_accepts Samples.ana
              {| Route.status := 200;
                 Route.body := VObj [ ("city", VStr "Lisbon"); ("country", VStr "Portugal");
                                      ("recommendation",
                                       VStr "Walk the hills of Alfama. Rest by the river.") ] |}
              eq_refl eq_refl)
    as (city & country & recommendation & rest & Hbody & _ & _ & _ & Htrace).
  exists city, country, recommendation, rest.
  split; [exact Hbody | exact Htrace].
Defined.

End PagePathsSpec.


(* ================================================================== *)
(** ** Properties of the timeline                                      *)
(* ================================================================== *)

Module TimelineSpec.
Import Timeline.

Lemma own_absent (k : string) (o : Fields) :
  ~ In k (map fst o) -> own k o = None.
Proof.
  induction o as [| [k' v] rest IH]; simpl; [reflexivity |].
  intros Hnot. destruct (String.eqb_spec k' k) as [-> | Hne].
  - exfalso. apply Hnot. left. reflexivity.
  - apply IH. intros Hin. apply Hnot. right. exact Hin.
Qed.

Lemma own_set_prop_same (k : string) (v : Stored) (o : Fields) :
  own k (set_prop k v o) = Some v.
Proof.
  induction o as [| [k' v'] rest IH]; simpl.
  - rewrite String.eqb_refl. reflexivity.
  - destruct (String.eqb_spec k' k) as [-> | Hne]; simpl.
    + rewrite String.eqb_refl. reflexivity.
    + destruct (String.eqb_spec k' k); [contradiction | exact IH].
Qed.

Lemma own_set_prop_other (k k0 : string) (v : Stored) (o : Fields) :
  k0 <> k -> own k (set_prop k0 v o) = own k o.
Proof.
  intros Hne. induction o as [| [k' v'] rest IH]; simpl.
  - destruct (String.eqb_spec k0 k); [contradiction | reflexivity].
  - destruct (String.eqb_spec k' k0) as [-> | Hne']; simpl.
    + destruct (String.eqb_spec k0 k); [contradiction | reflexivity].
    + destruct (String.eqb_spec k' k); [reflexivity | exact IH].
Qed.

Lemma own_spread (k : string) (source target : Fields) :
  NoDup (map fst source) ->
  own k (spread target source)
  = match own k source with Some v => Some v | None => own k target end.
Proof.
  unfold spread. revert target.
  induction source as [| [k1 v1] rest IH]; intros target Hnd; simpl; [reflexivity |].
  inversion Hnd as [| x l Hnot Hrest]; subst.
  rewrite (IH _ Hrest).
  destruct (String.eqb_spec k1 k) as [-> | Hne].
  - rewrite (own_absent k rest Hnot). apply own_set_prop_same.
  - destruct (own k rest); [reflexivity |]. apply own_set_prop_other. exact Hne.
Qed.

(** X18. An item of the timeline has every field of its document, and
    its id is the id of the document unless the document has a field named
    id of its own, which then takes its place. *)
Theorem item_fields (d : QueryDocumentSnapshot) :
  NoDup (map fst (data d)) ->
  (forall k, k <> "id" -> own k (item_of d) = own k (data d)) /\
  own "id" (item_of d)
  = match own "id" (data d) with
    | Some v => Some v
    | None => Some (Plain (VStr (id d)))
    end.
Proof.
  intros Hnd. unfold item_of. split.
  - intros k Hk. rewrite (own_spread k _ _ Hnd).
    destruct (own k (data d)); [reflexivity |].
    cbn [own]. destruct (String.eqb_spec "id" k) as [Heq | _]; [| reflexivity].
    exfalso. apply Hk. symmetry. exact Heq.
  - rewrite (own_spread "id" _ _ Hnd). reflexivity.
Qed.

Lemma item_fields_witness :
  own "city" (item_of {| id := "doc1";
                         data := [ ("city", Plain (VStr "Lisbon")); ("id", Plain (VNum (number_of_Z 7))) ] |})
  = Some (Plain (VStr "Lisbon")) /\
  own "id" (item_of {| id := "doc1";
                       data := [ ("city", Plain (VStr "Lisbon")); ("id", Plain (VNum (number_of_Z 7))) ] |})
  = Some (Plain (VNum (number_of_Z 7))).
Proof.
  destruct (item_fields {| id := "doc1";
                           data := [ ("city", Plain (VStr "Lisbon")); ("id", Plain (VNum (number_of_Z 7))) ] |})
    as (Hother & Hid).
  - simpl. repeat constructor; simpl; intuition discriminate.
  - split; [apply Hother; discriminate | exact Hid].
Defined.

Section Rendering.
Variable toLocaleUpperCase : string -> string.
Variable now : Z.
Variable toLocaleString : Z -> string.

Lemma capitalise_value_TypeError (v : value) (e : exn) :
  capitalise_value toLocaleUpperCase v = Throw e -> kind e = TypeError.
Proof.
  destruct v as [| | b | n | s | items | props]; cbn [capitalise_value];
    try (intros [= <-]; reflexivity).
  - destruct s; simpl; [intros [= <-]; reflexivity | discriminate].
  - destruct (nth 0 items VUndefined); try (intros [= <-]; reflexivity).
    destruct (to_string (VArr (skipn 1 items))) as [rest | e'] eqn:Hrest; [discriminate |].
    intros [= <-]. exact (RouteSpec.to_string_TypeError _ _ Hrest).
  - destruct (lookup "0" props); intros [= <-]; reflexivity.
Qed.

Lemma capitalise_field_TypeError (x : option Stored) (e : exn) :
  capitalise_field toLocaleUpperCase x = Throw e -> kind e = TypeError.
Proof.
  destruct x as [[v | millis] |]; simpl.
  - apply capitalise_value_TypeError.
  - intros [= <-]; reflexivity.
  - intros [= <-]; reflexivity.
Qed.

Lemma capitalise_field_blank (x : option Stored) (r : string) :
  blank x -> capitalise_field toLocaleUpperCase x <> Normal r.
Proof. intros [-> | ->]; discriminate. Qed.

Lemma created_time_TypeError (x : option Stored) (e : exn) :
  created_time now x = Throw e -> kind e = TypeError.
Proof.
  destruct x as [[v | millis] |]; simpl; try discriminate.
  destruct (nullish v); [discriminate |].
  destruct (nullish (member v "toDate")); [discriminate |].
  intros [= <-]; reflexivity.
Qed.

Lemma key_check_TypeError (x : option Stored) (e : exn) :
  key_check x = Throw e -> kind e = TypeError.
Proof.
  destruct x as [[v | millis] |]; simpl; try discriminate.
  destruct (to_string v) as [text | e'] eqn:Hv; [discriminate |].
  intros [= <-]. exact (RouteSpec.to_string_TypeError _ _ Hv).
Qed.

(** Whatever the page function throws for an item is a TypeError. *)
Lemma item_element_TypeError (item : Fields) (e : exn) :
  item_element toLocaleUpperCase now toLocaleString item = Throw e -> kind e = TypeError.
Proof.
  unfold item_element.
  destruct (created_time now (own "createdAt" item)) eqn:Ht;
    [| intros [= <-]; exact (created_time_TypeError _ _ Ht)].
  destruct (capitalise_field toLocaleUpperCase (own "city" item)) eqn:Hc;
    [| intros [= <-]; exact (capitalise_field_TypeError _ _ Hc)].
  destruct (capitalise_field toLocaleUpperCase (own "country" item)) eqn:Hk;
    [| intros [= <-]; exact (capitalise_field_TypeError _ _ Hk)].
  destruct (capitalise_field toLocaleUpperCase (own "style" item)) eqn:Hs;
    [| intros [= <-]; exact (capitalise_field_TypeError _ _ Hs)].
  destruct (capitalise_field toLocaleUpperCase (own "activity" item)) eqn:Ha;
    [| intros [= <-]; exact (capitalise_field_TypeError _ _ Ha)].
  destruct (key_check (own "id" item)) eqn:Hkey;
    [| intros [= <-]; exact (key_check_TypeError _ _ Hkey)].
  discriminate.
Qed.

(** The element of an item is built only when each of its four
    capitalised fields is. *)
Lemma item_element_fields (item : Fields) (el : ItemElement) :
  item_element toLocaleUpperCase now toLocaleString item = Normal el ->
  capitalise_field toLocaleUpperCase (own "city" item) = Normal (city_text el) /\
  capitalise_field toLocaleUpperCase (own "country" item) = Normal (country_text el) /\
  capitalise_field toLocaleUpperCase (own "style" item) = Normal (style_text el) /\
  capitalise_field toLocaleUpperCase (own "activity" item) = Normal (activity_text el).
Proof.
  unfold item_element.
  destruct (created_time now (own "createdAt" item)); [| discriminate].
  destruct (capitalise_field toLocaleUpperCase (own "city" item)); [| discriminate].
  destruct (capitalise_field toLocaleUpperCase (own "country" item)); [| discriminate].
  destruct (capitalise_field toLocaleUpperCase (own "style" item)); [| discriminate].
  destruct (capitalise_field toLocaleUpperCase (own "activity" item)); [| discriminate].
  destruct (key_check (own "id" item)); [| discriminate].
  intros [= <-]. simpl. repeat split.
Qed.

Lemma item_element_blank (item : Fields) :
  blank (own "city" item) \/ blank (own "country" item) \/
  blank (own "style" item) \/ blank (own "activity" item) ->
  exists e,
    item_element toLocaleUpperCase now toLocaleString item = Throw e /\ kind e = TypeError.
Proof.
  intros Hblank.
  destruct (item_element toLocaleUpperCase now toLocaleString item) as [el | e] eqn:Hrun.
  - exfalso. destruct (item_element_fields item el Hrun) as (Hc & Hk & Hs & Ha).
    destruct Hblank as [H | [H | [H | H]]].
    + exact (capitalise_field_blank _ _ H Hc).
    + exact (capitalise_field_blank _ _ H Hk).
    + exact (capitalise_field_blank _ _ H Hs).
    + exact (capitalise_field_blank _ _ H Ha).
  - exists e. split; [reflexivity | exact (item_element_TypeError item e Hrun)].
Qed.

Lemma render_item_blank (item : Fields) :
  blank (own "city" item) \/ blank (own "country" item) \/
  blank (own "style" item) \/ blank (own "activity" item) ->
  exists e,
    render_item toLocaleUpperCase now toLocaleString item = Throw e /\ kind e = TypeError.
Proof.
  intros Hblank. destruct (item_element_blank item Hblank) as (e & He & Hkind).
  exists e. unfold render_item. rewrite He. split; [reflexivity | exact Hkind].
Qed.

(** The two passes over the timeline succeed exactly when every item
    renders on its own. *)
Lemma passes_all (timeline : list Fields) :
  (exists elements rs,
     item_elements toLocaleUpperCase now toLocaleString timeline = Normal elements /\
     mount_items elements = Normal rs) <->
  Forall (fun item => exists r,
            render_item toLocaleUpperCase now toLocaleString item = Normal r) timeline.
Proof.
  induction timeline as [| item rest IH]; cbn [item_elements].
  - split; [constructor |].
    intros _. exists [], []. split; reflexivity.
  - split.
    + intros (elements & rs & Hels & Hmount).
      destruct (item_element toLocaleUpperCase now toLocaleString item) as [el | e] eqn:Hel;
        [| discriminate Hels].
      destruct (item_elements toLocaleUpperCase now toLocaleString rest) as [els | e];
        [| discriminate Hels].
      injection Hels as <-. cbn [mount_items] in Hmount.
      destruct (mount_item el) as [r | e] eqn:Hr; [| discriminate Hmount].
      destruct (mount_items els) as [rs' | e] eqn:Hrs; [| discriminate Hmount].
      constructor.
      * exists r. unfold render_item. rewrite Hel. exact Hr.
      * apply IH. exists els, rs'. split; [reflexivity | exact Hrs].
    + intros Hall. inversion Hall as [| x l (r & Hr) Hrest]; subst.
      apply IH in Hrest. destruct Hrest as (els & rs & Hels & Hmount).
      unfold render_item in Hr.
      destruct (item_element toLocaleUpperCase now toLocaleString item) as [el | e];
        [| discriminate Hr].
      rewrite Hels. exists (el :: els), (r :: rs).
      split; [reflexivity |]. cbn [mount_items]. rewrite Hr, Hmount. reflexivity.
Qed.

Lemma item_elements_length (timeline : list Fields) (elements : list ItemElement) :
  item_elements toLocaleUpperCase now toLocaleString timeline = Normal elements ->
  List.length elements = List.length timeline.
Proof.
  revert elements. induction timeline as [| item rest IH]; cbn [item_elements]; intros elements.
  - intros [= <-]. reflexivity.
  - destruct (item_element toLocaleUpperCase now toLocaleString item); [| discriminate].
    destruct (item_elements toLocaleUpperCase now toLocaleString rest) as [els | e];
      [| discriminate].
    intros [= <-]. simpl. rewrite (IH els eq_refl). reflexivity.
Qed.

Lemma mount_items_length (elements : list ItemElement) (rs : list RenderedItem) :
  mount_items elements = Normal rs -> List.length rs = List.length elements.
Proof.
  revert rs. induction elements as [| el rest IH]; cbn [mount_items]; intros rs.
  - intros [= <-]. reflexivity.
  - destruct (mount_item el); [| discriminate].
    destruct (mount_items rest) as [rs' | e]; [| discriminate].
    intros [= <-]. simpl. rewrite (IH rs' eq_refl). reflexivity.
Qed.

Lemma item_elements_TypeError (timeline : list Fields) (e : exn) :
  item_elements toLocaleUpperCase now toLocaleString timeline = Throw e -> kind e = TypeError.
Proof.
  induction timeline as [| item rest IH]; cbn [item_elements]; [discriminate |].
  destruct (item_element toLocaleUpperCase now toLocaleString item) as [el | e'] eqn:Hitem.
  - destruct (item_elements toLocaleUpperCase now toLocaleString rest) as [els | e'']; [discriminate |].
    intros [= <-]. apply IH. reflexivity.
  - intros [= <-]. exact (item_element_TypeError item e' Hitem).
Qed.

Lemma item_elements_each (timeline : list Fields) (elements : list ItemElement) (item : Fields) :
  item_elements toLocaleUpperCase now toLocaleString timeline = Normal elements ->
  In item timeline ->
  exists el, item_element toLocaleUpperCase now toLocaleString item = Normal el.
Proof.
  revert elements. induction timeline as [| it rest IH]; cbn [item_elements]; intros elements.
  - intros _ [].
  - destruct (item_element toLocaleUpperCase now toLocaleString it) as [el | e] eqn:Hit;
      [| discriminate].
    destruct (item_elements toLocaleUpperCase now toLocaleString rest) as [els | e];
      [| discriminate].
    intros _ [<- | Hin]; [exists el; exact Hit | exact (IH els eq_refl Hin)].
Qed.

End Rendering.

(** X20. Capitalising a stored field returns only for a non-empty string
    (the upper case of its first unit, then the rest) and for an array whose
    first element is a string and whose other elements have a string
    conversion; for an absent field, null, the empty string, a number, a
    boolean, an object or a timestamp it throws, and what it throws is always
    a TypeError. *)
Theorem capitalise_field_domain (toLocaleUpperCase : string -> string) (x : option Stored) :
  ((exists r, capitalise_field toLocaleUpperCase x = Normal r) <->
   text_field x \/
   exists first rest joined,
     x = Some (Plain (VArr (VStr first :: rest))) /\ to_string (VArr rest) = Normal joined) /\
  (forall c rest, x = Some (Plain (VStr (String c rest))) ->
     capitalise_field toLocaleUpperCase x = Normal (toLocaleUpperCase (String c "") ++ rest)) /\
  (forall e, capitalise_field toLocaleUpperCase x = Throw e -> kind e = TypeError).
Proof.
  split; [| split].
  - split.
    + intros (r & Hr).
      destruct x as [[v | millis] |]; cbn [capitalise_field] in Hr; try discriminate Hr.
      destruct v as [| | b | n | s | items | props]; cbn [capitalise_value] in Hr;
        try discriminate Hr.
      * left. exists s. split; [reflexivity |]. intros ->. discriminate Hr.
      * right. destruct items as [| first rest]; cbn [nth skipn] in Hr; [discriminate Hr |].
        destruct first; try discriminate Hr.
        destruct (to_string (VArr rest)) as [joined | e] eqn:Hjoin; [| discriminate Hr].
        eexists; eexists; eexists; split; [reflexivity | exact Hjoin].
      * destruct (lookup "0" props); discriminate Hr.
    + intros [(s & -> & Hs) | (first & rest & joined & -> & Hjoin)].
      * destruct s as [| c rest]; [contradiction |].
        simpl. rewrite PageSpec.capitalise_cons. eexists; reflexivity.
      * cbn [capitalise_field capitalise_value nth skipn]. rewrite Hjoin.
        eexists; reflexivity.
  - intros c rest ->. simpl. apply PageSpec.capitalise_cons.
  - apply capitalise_field_TypeError.
Qed.

(** X21. The timeline renders exactly when every item renders; then there
    is one rendered item per record, and the placeholder
    "No recommendations yet." is shown exactly when the timeline is empty. *)
Theorem timeline_renders
    (toLocaleUpperCase : string -> string) (now : Z) (toLocaleString : Z -> string)
    (timeline : list Fields) :
  ((exists r, render_timeline toLocaleUpperCase now toLocaleString timeline = Normal r) <->
   Forall (fun item => exists r,
             render_item toLocaleUpperCase now toLocaleString item = Normal r) timeline) /\
  (forall r, render_timeline toLocaleUpperCase now toLocaleString timeline = Normal r ->
     List.length (items r) = List.length timeline /\
     (placeholder r = Some "No recommendations yet." <-> timeline = []) /\
     (timeline <> [] -> placeholder r = None)).
Proof.
  unfold render_timeline. split.
  - rewrite <- passes_all. split.
    + intros (r & Hr).
      destruct (item_elements toLocaleUpperCase now toLocaleString timeline) as [els | e];
        [| discriminate Hr].
      destruct (mount_items els) as [rs | e] eqn:Hrs; [| discriminate Hr].
      exists els, rs. split; [reflexivity | exact Hrs].
    + intros (els & rs & -> & ->). eexists; reflexivity.
  - intros r.
    destruct (item_elements toLocaleUpperCase now toLocaleString timeline) as [els | e] eqn:Hels;
      [| discriminate].
    destruct (mount_items els) as [rs | e] eqn:Hrs; [| discriminate].
    intros [= <-]. cbn [items placeholder].
    split.
    + rewrite (mount_items_length els rs Hrs).
      exact (item_elements_length _ _ _ _ _ Hels).
    + destruct timeline as [| item rest]; simpl.
      * split; [split; reflexivity | intros H; contradiction].
      * split; [split; discriminate | reflexivity].
Qed.

(** X22. One record is enough to break the whole timeline: when some item
    has its city, country, style or activity absent or empty, rendering the
    timeline throws a TypeError, whatever the other items are. *)
Theorem blank_field_breaks_timeline
    (toLocaleUpperCase : string -> string) (now : Z) (toLocaleString : Z -> string)
    (timeline : list Fields) (item : Fields) :
  In item timeline ->
  blank (own "city" item) \/ blank (own "country" item) \/
  blank (own "style" item) \/ blank (own "activity" item) ->
  exists e,
    render_timeline toLocaleUpperCase now toLocaleString timeline = Throw e /\
    kind e = TypeError.
Proof.
  intros Hin Hblank. unfold render_timeline.
  destruct (item_elements toLocaleUpperCase now toLocaleString timeline) as [els | e] eqn:Hels.
  - exfalso.
    destruct (item_elements_each toLocaleUpperCase now toLocaleString timeline els item Hels Hin)
      as (el & Hel).
    destruct (item_element_blank toLocaleUpperCase now toLocaleString item Hblank)
      as (e & He & _).
    rewrite He in Hel. discriminate Hel.
  - exists e. split; [reflexivity |].
    exact (item_elements_TypeError _ _ _ _ _ Hels).
Qed.

Lemma blank_field_breaks_timeline_witness :
  exists e,
    render_timeline Page.ascii_toLocaleUpperCase 0%Z (fun _ => "now")
      [ [ ("id", Plain (VStr "a")); ("city", Plain (VStr "Lisbon"));
          ("country", Plain (VStr "Portugal")); ("style", Plain (VStr "Relaxed"));
          ("activity", Plain (VStr "Hiking")) ];
        [ ("id", Plain (VStr "b")); ("city", Plain (VStr ""));
          ("country", Plain (VStr "Portugal")); ("style", Plain (VStr "Relaxed"));
          ("activity", Plain (VStr "Hiking")) ] ] = Throw e /\
    kind e = TypeError.
Proof.
  apply (blank_field_breaks_timeline Page.ascii_toLocaleUpperCase 0%Z (fun _ => "now") _
           [ ("id", Plain (VStr "b")); ("city", Plain (VStr ""));
             ("country", Plain (VStr "Portugal")); ("style", Plain (VStr "Relaxed"));
             ("activity", Plain (VStr "Hiking")) ]).
  - right. left. reflexivity.
  - left. right. reflexivity.
Defined.

End TimelineSpec.


(* ================================================================== *)
(** ** From the submission to the timeline                             *)
(* ================================================================== *)

Module JourneySpec.
Import Timeline.

(** X23. The empty string the defaulting lets through cannot be shown: on
    a successful answer whose city or country is the empty string the record
    is handed to the store, and once a snapshot brings it back, rendering it
    throws a TypeError, with the timestamp assigned or still pending. *)
Theorem empty_result_field_is_stored_and_breaks_rendering
    (fetch : string -> value -> completion Page.Response)
    (addDoc : string -> Page.DocumentData -> completion unit)
    (data : Page.FormData) (res : Page.Response) (body : value) :
  fetch "/api/recommend" (Page.request_body data) = Normal res ->
  Page.ok res = true -> Page.json res = Normal body -> nullish body = false ->
  truthy (member body "error") = false ->
  member body "city" = VStr "" \/ member body "country" = VStr "" ->
  exists doc,
    In (Page.AddDoc "recommendations" doc) (trace (Page.onSubmit fetch addDoc data)) /\
    forall toLocaleUpperCase now toLocaleString docId assigned,
    exists e,
      render_item toLocaleUpperCase now toLocaleString
                  (item_of {| id := docId; data := read_back assigned doc |}) = Throw e /\
      kind e = TypeError.
Proof.
  intros Hfetch Hok Hjson Hbody Herr Hempty.
  exists (Page.record data (coalesce (member body "city") PagePaths.Unknown)
                           (coalesce (member body "country") PagePaths.Unknown)
                           (coalesce (member body "recommendation") PagePaths.Unknown)).
  split.
  - unfold Page.onSubmit. simpl. rewrite Hfetch. simpl. rewrite Hjson. simpl.
    rewrite Hok. simpl. unfold get_prop. rewrite Hbody. simpl. rewrite Herr. simpl.
    destruct (addDoc _ _) as [[] | e]; simpl; right; left; reflexivity.
  - intros toLocaleUpperCase now toLocaleString docId assigned.
    apply TimelineSpec.render_item_blank.
    destruct Hempty as [H | H]; rewrite H.
    + left. right. reflexivity.
    + right. left. right. reflexivity.
Qed.

Lemma empty_result_field_is_stored_and_breaks_rendering_witness :
  exists doc,
    In (Page.AddDoc "recommendations" doc)
       (trace (Page.onSubmit (Samples.endpoint_answers Samples.hollow_response)
                             Samples.store_accepts Samples.ana)) /\
    forall toLocaleUpperCase now toLocaleString docId assigned,
    exists e,
      render_item toLocaleUpperCase now toLocaleString
                  (item_of {| id := docId; data := read_back assigned doc |}) = Throw e /\
      kind e = TypeError.
Proof.
  apply (empty_result_field_is_stored_and_breaks_rendering
           (Samples.endpoint_answers Samples.hollow_response) Samples.store_accepts
           Samples.ana Samples.hollow_response
           (VObj [ ("city", VStr ""); ("country", VNull) ])).
  - reflexivity.
  - reflexivity.
  - reflexivity.
  - reflexivity.
  - reflexivity.
  - left. reflexivity.
Defined.

(** X24. A record written for values that passed the validation, with a
    city and a country that are non-empty strings and a recommendation that
    is a string, renders: its key is the id of the document, its four
    capitalised texts are those of city, country, style and activity, the
    other fields are shown as they are, and its time is the timestamp of the
    server, or the clock while that is pending. *)
Theorem valid_record_renders
    (toLocaleUpperCase : string -> string) (now : Z) (toLocaleString : Z -> string)
    (data : Page.FormData) (city country recommendation : string)
    (docId : string) (assigned : option Z) :
  ~ Page.below_minimum data -> city <> "" -> country <> "" ->
  exists rendered,
    render_item toLocaleUpperCase now toLocaleString
      (item_of {| id := docId;
                  data := read_back assigned
                            (Page.record data (VStr city) (VStr country)
                                         (VStr recommendation)) |})
    = Normal rendered /\
    key rendered = Some (Plain (VStr docId)) /\
    time rendered = toLocaleString (shown_time now assigned) /\
    Page.capitaliseFirstLetter toLocaleUpperCase city = Normal (Timeline.city rendered) /\
    Page.capitaliseFirstLetter toLocaleUpperCase country = Normal (Timeline.country rendered) /\
    Page.capitaliseFirstLetter toLocaleUpperCase (Page.style data)
    = Normal (Timeline.style rendered) /\
    Page.capitaliseFirstLetter toLocaleUpperCase (Page.activity data)
    = Normal (Timeline.activity rendered) /\
    username rendered = Page.username data /\
    age rendered = Page.age data /\
    Timeline.recommendation rendered = recommendation.
Proof.
  intros Hvalid Hcity Hcountry.
  assert (Hstyle : Page.style data <> "").
  { intros Heq. apply Hvalid. right; right; left. rewrite Heq. simpl. lia. }
  assert (Hactivity : Page.activity data <> "").
  { intros Heq. apply Hvalid. right; right; right. rewrite Heq. simpl. lia. }
  destruct city as [| c1 r1]; [contradiction |].
  destruct country as [| c2 r2]; [contradiction |].
  destruct (Page.style data) as [| c3 r3] eqn:Hs; [contradiction |].
  destruct (Page.activity data) as [| c4 r4] eqn:Ha; [contradiction |].
  rewrite !PageSpec.capitalise_cons.
  unfold render_item, item_element, item_of, read_back, Page.record, spread.
  cbn [map fold_left fst snd set_prop own String.eqb Ascii.eqb Bool.eqb read_field
       Timeline.data Timeline.id].
  rewrite Hs, Ha.
  cbn [capitalise_field capitalise_value key_check to_string].
  rewrite !PageSpec.capitalise_cons.
  destruct assigned as [millis |]; cbn [created_time nullish shown_time];
    cbn [mount_item stored_child child_text username_child age_child recommendation_child];
    eexists; (split; [reflexivity |]); repeat split; reflexivity.
Qed.

Lemma valid_record_renders_witness :
  exists rendered,
    render_item Page.ascii_toLocaleUpperCase 0%Z (fun _ => "now")
      (item_of {| id := "doc1";
                  data := read_back None
                            (Page.record Cases.shortest (VStr "lisbon") (VStr "portugal")
                                         (VStr "Walk.")) |})
    = Normal rendered /\
    Timeline.city rendered = "Lisbon" /\ Timeline.style rendered = "Zen".
Proof.
  destruct (valid_record_renders Page.ascii_toLocaleUpperCase 0%Z (fun _ => "now")
              Cases.shortest "lisbon" "portugal" "Walk." "doc1" None)
    as (rendered & Hrun & _ & _ & Hc & _ & Hs & _).
  - unfold Page.below_minimum. simpl. lia.
  - discriminate.
  - discriminate.
  - exists rendered. split; [exact Hrun |].
    split.
    + injection Hc as <-. reflexivity.
    + injection Hs as <-. reflexivity.
Defined.

End JourneySpec.
